(** * Provider registry and generation/upload wrappers of the jane web client

  A shallow embedding of
  - [src/lib/providerRegistry.ts]   (class [ProviderRegistry]),
  - [src/services/ai/pollinations.ts] (class [PollinationsService]),
  - [src/services/uploads/imgbb.ts] (class [ImgBBService]),
  and the properties their specification states about them.

  The code is TypeScript: at run time its values are JavaScript values, its
  [Map] and [Set] keep insertion order, and its methods either return or
  throw.  The embedding keeps those three aspects:
  values are [JS.value], the containers are [JSMap] and [JSSet], and every
  method is a function from the state before to a completion and the state
  after. *)

From Stdlib Require Import String Ascii List ZArith Bool Lia.
From Stdlib Require Import DecimalString.
Import ListNotations.
Local Open Scope string_scope.
Local Open Scope list_scope.

Set Implicit Arguments.
Set Warnings "-register-all".

(* ===================================================================== *)
(** ** JavaScript values, as far as this code looks at them *)
(* ===================================================================== *)

Module JS.

(** Run-time values.  Objects are property lists (the first binding of a
    name is the property); only own data properties are modelled, which is
    all this code reads (provider, base_url, settings, providers, success).
    Number payloads are never computed with here; integers stand for
    them. *)
Inductive value : Type :=
| VUndefined
| VNull
| VBool (b : bool)
| VNumber (n : Z)
| VString (s : string)
| VArray (elems : list value)
| VObject (props : list (string * value)).

(** What a [throw] carries. [Error] is [new Error(message)]; [TypeError] is
    what the engine raises on a property read of null or undefined;
    [URIError] is what [encodeURIComponent] raises on a string it cannot
    encode; [Thrown] is any other thrown value. *)
Inductive exn : Type :=
| Error (message : string)
| TypeError (message : string)
| URIError (message : string)
| Thrown (v : value).

(** The outcome of evaluating an expression or running a method body. *)
Inductive completion (A : Type) : Type :=
| Normal (a : A)
| Throw (e : exn).
Arguments Normal {A} a.
Arguments Throw {A} e.

Definition bind {A B} (c : completion A) (k : A -> completion B) : completion B :=
  match c with
  | Normal a => k a
  | Throw e => Throw e
  end.

(** ToBoolean: what [!x] and [if (x)] look at. *)
Definition truthy (v : value) : bool :=
  match v with
  | VUndefined | VNull => false
  | VBool b => b
  | VNumber n => negb (n =? 0)%Z
  | VString s => negb (s =? "")
  | VArray _ | VObject _ => true
  end.

Fixpoint lookup (name : string) (props : list (string * value)) : option value :=
  match props with
  | [] => None
  | (k, v) :: rest => if k =? name then Some v else lookup name rest
  end.

(** [v.name]: a TypeError on null and undefined, the property of an object,
    undefined on anything else. *)
Definition get (name : string) (v : value) : completion value :=
  match v with
  | VUndefined =>
      Throw (TypeError ("Cannot read properties of undefined (reading '" ++ name ++ "')"))
  | VNull =>
      Throw (TypeError ("Cannot read properties of null (reading '" ++ name ++ "')"))
  | VObject props =>
      match lookup name props with
      | Some x => Normal x
      | None => Normal VUndefined
      end
  | _ => Normal VUndefined
  end.

(** [typeof v === 'string'] *)
Definition is_string (v : value) : bool :=
  match v with VString _ => true | _ => false end.

(** [Array.isArray(v)] *)
Definition isArray (v : value) : bool :=
  match v with VArray _ => true | _ => false end.

(** [xs.every(f)]: stops at the first element on which [f] is false, and at
    the first one on which [f] throws. *)
Fixpoint every {A} (f : A -> completion bool) (xs : list A) : completion bool :=
  match xs with
  | [] => Normal true
  | x :: rest =>
      match f x with
      | Normal true => every f rest
      | Normal false => Normal false
      | Throw e => Throw e
      end
  end.

End JS.

(* ===================================================================== *)
(** ** [Map<string, V>]: insertion-ordered, one entry per key *)
(* ===================================================================== *)

Module JSMap.

Definition t (V : Type) : Type := list (string * V).

Definition empty {V} : t V := [].

(** [m.set(k, v)]: replaces the value in place when [k] is there, appends
    the entry otherwise. *)
Fixpoint set {V} (k : string) (v : V) (m : t V) : t V :=
  match m with
  | [] => [(k, v)]
  | (k', v') :: rest =>
      if k' =? k then (k, v) :: rest else (k', v') :: set k v rest
  end.

(** [m.get(k)], [None] for undefined. *)
Fixpoint get {V} (k : string) (m : t V) : option V :=
  match m with
  | [] => None
  | (k', v') :: rest => if k' =? k then Some v' else get k rest
  end.

(** [m.has(k)] *)
Fixpoint has {V} (k : string) (m : t V) : bool :=
  match m with
  | [] => false
  | (k', _) :: rest => if k' =? k then true else has k rest
  end.

(** [m.delete(k)] *)
Definition delete {V} (k : string) (m : t V) : t V :=
  filter (fun kv => negb (fst kv =? k)) m.

(** [m.clear()] *)
Definition clear {V} (m : t V) : t V := [].

(** [Array.from(m.values())] *)
Definition values {V} (m : t V) : list V := List.map snd m.

Definition keys {V} (m : t V) : list string := List.map fst m.

End JSMap.

(* ===================================================================== *)
(** ** [Set<() => void>]: insertion-ordered, by reference *)
(* ===================================================================== *)

Module JSSet.

(** A function object is known by its reference. *)
Definition ref := nat.

Definition t : Type := list ref.

Definition empty : t := [].

Definition mem (c : ref) (s : t) : bool := existsb (Nat.eqb c) s.

(** [s.add(c)]: nothing happens when [c] is already a member. *)
Definition add (c : ref) (s : t) : t :=
  if mem c s then s else s ++ [c].

(** [s.delete(c)] *)
Definition delete (c : ref) (s : t) : t :=
  filter (fun c' => negb (Nat.eqb c c')) s.

End JSSet.

(* ===================================================================== *)
(** ** The provider registry ([src/lib/providerRegistry.ts]) *)
(* ===================================================================== *)

Module Registry.
Import JS.

(** [interface ProviderTemplate].  The three members the loader checks are
    typed; the optional members (active, api_key, explore_models_url, models,
    persist, custom_header) and any further property the object carries stay
    as they are at run time, by name, in [optional]: the registry never reads
    them, and nothing checks them. *)
Record ProviderTemplate : Type := {
  provider : string;
  base_url : string;
  settings : list value;
  optional : list (string * value)
}.

Definition required_member (name : string) : bool :=
  (name =? "provider") || (name =? "base_url") || (name =? "settings").

(** A run-time value seen through [interface ProviderTemplate]; [None] when
    it does not have the three required members at their types. *)
Definition as_template (v : value) : option ProviderTemplate :=
  match v with
  | VObject props =>
      match lookup "provider" props, lookup "base_url" props, lookup "settings" props with
      | Some (VString p), Some (VString b), Some (VArray s) =>
          Some {| provider := p; base_url := b; settings := s;
                  optional := filter (fun kv => negb (required_member (fst kv))) props |}
      | _, _, _ => None
      end
  | _ => None
  end.

Fixpoint as_templates (vs : list value) : list ProviderTemplate :=
  match vs with
  | [] => []
  | v :: rest =>
      match as_template v with
      | Some t => t :: as_templates rest
      | None => as_templates rest
      end
  end.

(** What the registry does to the outside: it calls a subscribed function
    (which then sees the provider map as it is at that moment), writes to the
    console, and fetches a URL. *)
Inductive event : Type :=
| Called (c : JSSet.ref) (seen : JSMap.t ProviderTemplate)
| ConsoleError (label : string) (e : exn)
| Fetch (url : string).

(** The singleton: its two private fields, and the trace of its effects. *)
Record world : Type := {
  externalProviders : JSMap.t ProviderTemplate;
  providerLoadCallbacks : JSSet.t;
  trace : list event
}.

(** [ProviderRegistry.getInstance()] on first access. *)
Definition instance : world :=
  {| externalProviders := JSMap.empty; providerLoadCallbacks := JSSet.empty; trace := [] |}.

Definition with_providers (f : JSMap.t ProviderTemplate -> JSMap.t ProviderTemplate) (w : world) : world :=
  {| externalProviders := f (externalProviders w);
     providerLoadCallbacks := providerLoadCallbacks w;
     trace := trace w |}.

Definition with_callbacks (f : JSSet.t -> JSSet.t) (w : world) : world :=
  {| externalProviders := externalProviders w;
     providerLoadCallbacks := f (providerLoadCallbacks w);
     trace := trace w |}.

Definition emit (ev : event) (w : world) : world :=
  {| externalProviders := externalProviders w;
     providerLoadCallbacks := providerLoadCallbacks w;
     trace := trace w ++ [ev] |}.

(** Methods: state in, completion and state out. *)
Definition M (A : Type) : Type := world -> completion A * world.

Definition ret {A} (a : A) : M A := fun w => (Normal a, w).

Definition throw {A} (e : exn) : M A := fun w => (Throw e, w).

Definition mbind {A B} (m : M A) (k : A -> M B) : M B :=
  fun w =>
    match m w with
    | (Normal a, w') => k a w'
    | (Throw e, w') => (Throw e, w')
    end.

Definition lift {A} (c : completion A) : M A := fun w => (c, w).

Definition update (f : world -> world) : M unit := fun w => (Normal tt, f w).

(** [try { body } catch (error) { handler(error) }] *)
Definition try_catch {A} (body : M A) (handler : exn -> M A) : M A :=
  fun w =>
    match body w with
    | (Normal a, w') => (Normal a, w')
    | (Throw e, w') => handler e w'
    end.

Declare Scope registry_scope.
Delimit Scope registry_scope with registry.
Notation "x <- m ;; k" := (mbind m (fun x => k))
  (at level 61, m at next level, right associativity) : registry_scope.
Notation "m ;;; k" := (mbind m (fun _ => k))
  (at level 61, right associativity) : registry_scope.
Local Open Scope registry_scope.

(** The response of [fetch], as far as [loadProvidersFromUrl] reads it. *)
Record response : Type := {
  ok : bool;
  statusText : string;
  json : completion value
}.

Section Methods.

(** What calling a subscribed function does: it returns ([None]) or throws
    ([Some e]), possibly depending on the provider map it reads through the
    registry's getters.  Listeners are observers: they do not call the
    registry's mutating methods from inside the notification. *)
Variable run : JSSet.ref -> JSMap.t ProviderTemplate -> option exn.

(** [callback()]: the function runs, seeing the provider map as it is, and
    returns or throws. *)
Definition call (callback : JSSet.ref) : M unit :=
  fun w =>
    (match run callback (externalProviders w) with
     | None => Normal tt
     | Some error => Throw error
     end,
     emit (Called callback (externalProviders w)) w).

(** [xs.forEach(f)]: in order; a throw that leaves [f] ends the loop. *)
Fixpoint forEach {A} (xs : list A) (f : A -> M unit) : M unit :=
  match xs with
  | [] => ret tt
  | x :: rest => f x ;;; forEach rest f
  end.

Definition notifyListeners : M unit :=
  fun w =>
    forEach (providerLoadCallbacks w) (fun callback =>
      try_catch (call callback)
        (fun error => update (emit (ConsoleError "Error in provider change callback:" error))))
      w.

Definition registerProvider (p : ProviderTemplate) : M unit :=
  update (with_providers (JSMap.set (provider p) p)) ;;;
  notifyListeners.

Definition registerProviders (providers : list ProviderTemplate) : M unit :=
  forEach providers (fun p =>
    update (with_providers (JSMap.set (provider p) p))) ;;;
  notifyListeners.

Definition element_ok (p : value) : completion bool :=
  JS.bind (JS.get "provider" p) (fun x =>
  if negb (is_string x) then Normal false else
  JS.bind (JS.get "base_url" p) (fun y =>
  if negb (is_string y) then Normal false else
  JS.bind (JS.get "settings" p) (fun z =>
  Normal (isArray z)))).

Definition validateProviderConfig (config : value) : completion bool :=
  if negb (truthy config) then Normal false else
  JS.bind (JS.get "providers" config) (fun ps =>
  match ps with
  | VArray elems => every element_ok elems
  | _ => Normal false
  end).

(** [config.providers], typed [ProviderTemplate[]] by the signature. *)
Definition config_providers (config : value) : list ProviderTemplate :=
  match JS.get "providers" config with
  | Normal (VArray elems) => as_templates elems
  | _ => []
  end.

Definition loadProvidersFromConfig (config : value) : M unit :=
  valid <- lift (validateProviderConfig config) ;;
  if negb valid then throw (Error "Invalid provider configuration format")
  else registerProviders (config_providers config).

(** [loadProvidersFromUrl(url)], given what [await fetch(url)] comes back
    with: a rejection or a response. *)
Definition loadProvidersFromUrl (url : string) (fetched : completion response) : M unit :=
  try_catch
    (update (emit (Fetch url)) ;;;
     r <- lift fetched ;;
     if negb (ok r)
     then throw (Error ("Failed to fetch providers from " ++ url ++ ": " ++ statusText r))
     else
       config <- lift (json r) ;;
       valid <- lift (validateProviderConfig config) ;;
       if negb valid then throw (Error "Invalid provider configuration format")
       else registerProviders (config_providers config))
    (fun error =>
       update (emit (ConsoleError "Error loading providers from URL:" error)) ;;;
       throw error).

Definition getRegisteredProviders (w : world) : list ProviderTemplate :=
  JSMap.values (externalProviders w).

Definition getProvider (providerName : string) (w : world) : option ProviderTemplate :=
  JSMap.get providerName (externalProviders w).

Definition hasProvider (providerName : string) (w : world) : bool :=
  JSMap.has providerName (externalProviders w).

Definition unregisterProvider (providerName : string) : M unit :=
  update (with_providers (JSMap.delete providerName)) ;;;
  notifyListeners.

Definition clearAll : M unit :=
  update (with_providers JSMap.clear) ;;;
  notifyListeners.

(** The function [onProvidersChanged] returns: a closure over [callback]. *)
Record unsubscribe : Type := { captured : JSSet.ref }.

Definition onProvidersChanged (callback : JSSet.ref) : M unsubscribe :=
  update (with_callbacks (JSSet.add callback)) ;;;
  ret {| captured := callback |}.

(** Calling the returned closure. *)
Definition call_unsubscribe (u : unsubscribe) : M unit :=
  update (with_callbacks (JSSet.delete (captured u))).

(** The four mutating methods of section 4.1, as one call. *)
Inductive mutation : Type :=
| RegisterProvider (p : ProviderTemplate)
| RegisterProviders (providers : list ProviderTemplate)
| UnregisterProvider (providerName : string)
| ClearAll.

Definition perform (mu : mutation) : M unit :=
  match mu with
  | RegisterProvider p => registerProvider p
  | RegisterProviders providers => registerProviders providers
  | UnregisterProvider providerName => unregisterProvider providerName
  | ClearAll => clearAll
  end.

(** One call of a public method, whatever its arguments and outcome. *)
Inductive step : world -> world -> Prop :=
| step_perform mu w :
    step w (snd (perform mu w))
| step_loadProvidersFromConfig config w :
    step w (snd (loadProvidersFromConfig config w))
| step_loadProvidersFromUrl url fetched w :
    step w (snd (loadProvidersFromUrl url fetched w))
| step_onProvidersChanged callback w :
    step w (snd (onProvidersChanged callback w))
| step_call_unsubscribe u w :
    step w (snd (call_unsubscribe u w)).

(** The states the singleton can be in. *)
Inductive reachable : world -> Prop :=
| reachable_instance : reachable instance
| reachable_step w w' : reachable w -> step w w' -> reachable w'.

(** What one notification adds to the trace, for provider map [m] and
    subscribers [s]. *)
Definition notification (m : JSMap.t ProviderTemplate) (s : JSSet.t) : list event :=
  flat_map (fun c =>
    Called c m ::
    match run c m with
    | None => []
    | Some error => [ConsoleError "Error in provider change callback:" error]
    end) s.

End Methods.

(** The functions called, in order, in a piece of trace. *)
Fixpoint called (evs : list event) : list JSSet.ref :=
  match evs with
  | [] => []
  | Called c _ :: rest => c :: called rest
  | _ :: rest => called rest
  end.

(** How many times [c] was called in a piece of trace. *)
Definition count_calls (c : JSSet.ref) (evs : list event) : nat :=
  count_occ Nat.eq_dec (called evs) c.

(** The provider maps the called functions saw. *)
Fixpoint seen_by_calls (evs : list event) : list (JSMap.t ProviderTemplate) :=
  match evs with
  | [] => []
  | Called _ m :: rest => m :: seen_by_calls rest
  | _ :: rest => seen_by_calls rest
  end.

(** The last template of [providers] whose key is [k]. *)
Definition last_with_key (k : string) (providers : list ProviderTemplate) : option ProviderTemplate :=
  find (fun p => provider p =? k) (rev providers).

(** Every entry is filed under its own template's [provider]. *)
Definition keyed (m : JSMap.t ProviderTemplate) : Prop :=
  Forall (fun kv => provider (snd kv) = fst kv) m.

(** What a mutation does to the provider map. *)
Definition mutated (mu : mutation) (m : JSMap.t ProviderTemplate) : JSMap.t ProviderTemplate :=
  match mu with
  | RegisterProvider p => JSMap.set (provider p) p m
  | RegisterProviders providers => fold_left (fun m p => JSMap.set (provider p) p m) providers m
  | UnregisterProvider providerName => JSMap.delete providerName m
  | ClearAll => JSMap.clear m
  end.

(** A value on which a property read does not throw. *)
Definition readable (v : value) : bool :=
  match v with VUndefined | VNull => false | _ => true end.

(** What a load from a URL ends with, before it touches the registry: the
    error it throws, or the templates it registers. *)
Definition url_outcome (url : string) (fetched : completion response)
  : exn + list ProviderTemplate :=
  match fetched with
  | Throw e => inl e
  | Normal r =>
      if negb (ok r)
      then inl (Error ("Failed to fetch providers from " ++ url ++ ": " ++ statusText r))
      else match json r with
           | Throw e => inl e
           | Normal config =>
               match validateProviderConfig config with
               | Normal true => inr (config_providers config)
               | Normal false => inl (Error "Invalid provider configuration format")
               | Throw e => inl e
               end
           end
  end.

Definition map_ok (m : JSMap.t ProviderTemplate) : Prop :=
  NoDup (JSMap.keys m) /\ keyed m.

Definition wf (w : world) : Prop :=
  map_ok (externalProviders w) /\ NoDup (providerLoadCallbacks w).

End Registry.

(* ===================================================================== *)
(** ** The generation and upload wrappers
       ([src/services/ai/pollinations.ts], [src/services/uploads/imgbb.ts]) *)
(* ===================================================================== *)

Module Services.
Import JS.

(** The two things this code does with a [number]: test it ([if (n)]) and
    print it ([n.toString()]). *)
Class JSNumber (number : Type) : Type := {
  number_truthy : number -> bool;
  number_toString : number -> string
}.

(** [Number.MAX_SAFE_INTEGER], 2^53 - 1. *)
Definition MAX_SAFE_INTEGER : Z := 9007199254740991.

(** The safe integers ([Number.isSafeInteger]): the numbers that are
    integers of magnitude at most 2^53 - 1.  A number holds each of them
    exactly and [toString] prints its decimal digits.  Fractions, larger
    magnitudes, NaN and the infinities are not in this instance; the
    statements about the wrappers are over any [JSNumber]. *)
Record SafeInteger : Type := {
  integer : Z;
  is_safe : (Z.abs integer <=? MAX_SAFE_INTEGER)%Z = true
}.

#[export] Instance SafeInteger_JSNumber : JSNumber SafeInteger := {
  number_truthy := fun n => negb (integer n =? 0)%Z;
  number_toString := fun n => NilZero.string_of_int (Z.to_int (integer n))
}.

Definition string_truthy (s : string) : bool := negb (s =? "").

Inductive image_model : Type :=
| flux | turbo | gptimage | kontext | seedream | nanobanana | nanobanana_pro.

Definition image_model_name (m : image_model) : string :=
  match m with
  | flux => "flux" | turbo => "turbo" | gptimage => "gptimage"
  | kontext => "kontext" | seedream => "seedream"
  | nanobanana => "nanobanana" | nanobanana_pro => "nanobanana-pro"
  end.

Inductive image_quality : Type := low | medium | high | hd.

Definition image_quality_name (q : image_quality) : string :=
  match q with low => "low" | medium => "medium" | high => "high" | hd => "hd" end.

(** [interface ImageGenerationOptions]; [None] is an absent member. *)
Record ImageGenerationOptions (number : Type) : Type := {
  model : option image_model;
  width : option number;
  height : option number;
  seed : option number;
  enhance : option bool;
  negative_prompt : option string;
  nologo : option bool;
  safe : option bool;
  quality : option image_quality;
  transparent : option bool;
  guidance_scale : option number
}.

Inductive video_model : Type := veo | seedance | seedance_pro.

Definition video_model_name (m : video_model) : string :=
  match m with veo => "veo" | seedance => "seedance" | seedance_pro => "seedance-pro" end.

Inductive aspect_ratio : Type := landscape | portrait.

Definition aspect_ratio_name (a : aspect_ratio) : string :=
  match a with landscape => "16:9" | portrait => "9:16" end.

(** [interface VideoGenerationOptions] *)
Record VideoGenerationOptions (number : Type) : Type := {
  video_model_of : option video_model;
  duration : option number;
  aspectRatio : option aspect_ratio;
  audio : option bool;
  referenceImage : option string
}.

(** [interface ImgBBUploadOptions] *)
Record ImgBBUploadOptions (number : Type) : Type := {
  name : option string;
  expiration : option number
}.

(** [URLSearchParams] and [FormData], as the pairs appended so far. *)
Definition pairs : Type := list (string * string).

Definition append (key val : string) (p : pairs) : pairs := p ++ [(key, val)].

(** [if (o) p.append(key, text o)] for an optional member [o]. *)
Definition append_if {A} (o : option A) (test : A -> bool) (key : string)
  (text : A -> string) (p : pairs) : pairs :=
  match o with
  | Some a => if test a then append key (text a) p else p
  | None => p
  end.

Record File : Type := { file_name : string; file_bytes : string }.

Record request : Type := {
  url : string;
  method : string;
  headers : pairs;
  body : option pairs
}.

Record response : Type := {
  ok : bool;
  statusText : string;
  json : completion value;
  blob : completion string
}.

(** How [FileReader.readAsDataURL] ends: [onload] with [reader.result] a
    string or something else, or [onerror]. *)
Inductive read_outcome : Type :=
| Loaded (result : option string)
| Failed (ev : exn).

(** The browser: what the wrappers call and do not define.
    [encodeURIComponent] throws on a string that holds a lone surrogate;
    [params.toString()] never throws. *)
Record platform : Type := {
  fetch : request -> completion response;
  readAsDataURL : File -> read_outcome;
  encodeURIComponent : string -> completion string;
  params_toString : pairs -> string
}.

Inductive event : Type :=
| Fetched (r : request)
| ReadAsDataURL (f : File)
| ConsoleError (label : string) (e : exn).

(** An [async] method: the settled promise and what was done on the way. *)
Definition async (A : Type) : Type := (completion A * list event)%type.

(** [s.split(',')]: the pieces between the commas. *)
Fixpoint split_comma (s : string) : list string :=
  match s with
  | EmptyString => [EmptyString]
  | String c rest =>
      if Ascii.eqb c ","%char then EmptyString :: split_comma rest
      else match split_comma rest with
           | [] => [String c EmptyString]
           | piece :: more => String c piece :: more
           end
  end.

(** The string a value becomes when appended to [FormData]. *)
Definition form_text (o : option string) : string :=
  match o with Some s => s | None => "undefined" end.

Section Wrappers.

Context {number : Type} `{JSNumber number}.
Variable browser : platform.

(** *** [PollinationsService] *)

Record PollinationsService : Type := {
  pollinations_apiKey : string;
  pollinations_baseUrl : string
}.

(** The [URLSearchParams] that [generateImage] builds. *)
Definition imageParams (options : ImageGenerationOptions number) : pairs :=
  let params : pairs := [] in
  let params := append_if (model options) (fun _ => true) "model" image_model_name params in
  let params := append_if (width options) number_truthy "width" number_toString params in
  let params := append_if (height options) number_truthy "height" number_toString params in
  let params := append_if (seed options) number_truthy "seed" number_toString params in
  let params := append_if (enhance options) (fun b => b) "enhance" (fun _ => "true") params in
  let params := append_if (negative_prompt options) string_truthy "negative_prompt" (fun s => s) params in
  let params := append_if (nologo options) (fun b => b) "nologo" (fun _ => "true") params in
  let params := append_if (safe options) (fun b => b) "safe" (fun _ => "true") params in
  let params := append_if (quality options) (fun _ => true) "quality" image_quality_name params in
  let params := append_if (transparent options) (fun b => b) "transparent" (fun _ => "true") params in
  let params := append_if (guidance_scale options) number_truthy "guidance_scale" number_toString params in
  params.

Definition authorization (apiKey : string) : pairs :=
  if string_truthy apiKey then [("Authorization", ("Bearer " ++ apiKey)%string)] else [].

(** [generateImage(prompt, options)].  The URL is built before the [try]:
    when [encodeURIComponent] throws, the promise rejects with what it threw,
    nothing is requested and nothing is written to the console. *)
Definition generateImage (this : PollinationsService) (prompt : string)
  (options : ImageGenerationOptions number) : async string :=
  let params := imageParams options in
  match encodeURIComponent browser prompt with
  | Throw error => (Throw error, [])
  | Normal encoded =>
      let target := (pollinations_baseUrl this ++ "/image/" ++ encoded ++ "?"
                     ++ params_toString browser params)%string in
      let req := {| url := target; method := "GET";
                    headers := authorization (pollinations_apiKey this); body := None |} in
      let attempt : completion string :=
        JS.bind (fetch browser req) (fun r =>
        if negb (ok r) then Throw (Error ("Image generation failed: " ++ statusText r))
        else blob r) in
      match attempt with
      | Normal b => (Normal b, [Fetched req])
      | Throw error => (Throw error, [Fetched req; ConsoleError "Error generating image:" error])
      end
  end.

(** The [URLSearchParams] that [generateVideo] builds; the reference image
    goes under the name [image]. *)
Definition videoParams (options : VideoGenerationOptions number) : pairs :=
  let params : pairs := [] in
  let params := append_if (video_model_of options) (fun _ => true) "model" video_model_name params in
  let params := append_if (duration options) number_truthy "duration" number_toString params in
  let params := append_if (aspectRatio options) (fun _ => true) "aspectRatio" aspect_ratio_name params in
  let params := append_if (audio options) (fun b => b) "audio" (fun _ => "true") params in
  let params := append_if (referenceImage options) string_truthy "image" (fun s => s) params in
  params.

(** [generateVideo(prompt, options)]; the URL is built before the [try],
    as in [generateImage], and under the same path [/image/]. *)
Definition generateVideo (this : PollinationsService) (prompt : string)
  (options : VideoGenerationOptions number) : async string :=
  let params := videoParams options in
  match encodeURIComponent browser prompt with
  | Throw error => (Throw error, [])
  | Normal encoded =>
      let target := (pollinations_baseUrl this ++ "/image/" ++ encoded ++ "?"
                     ++ params_toString browser params)%string in
      let req := {| url := target; method := "GET";
                    headers := authorization (pollinations_apiKey this); body := None |} in
      let attempt : completion string :=
        JS.bind (fetch browser req) (fun r =>
        if negb (ok r) then Throw (Error ("Video generation failed: " ++ statusText r))
        else blob r) in
      match attempt with
      | Normal b => (Normal b, [Fetched req])
      | Throw error => (Throw error, [Fetched req; ConsoleError "Error generating video:" error])
      end
  end.

(** *** [ImgBBService] *)

Record ImgBBService : Type := {
  apiKey : string;
  baseUrl : string
}.

(** [new ImgBBService()], with the value of [VITE_IMGBB_API_KEY] when set. *)
Definition new_ImgBBService (env_key : option string) : ImgBBService :=
  {| apiKey := match env_key with
               | Some k => if string_truthy k then k else ""
               | None => ""
               end;
     baseUrl := "https://api.imgbb.com/1/upload" |}.

Definition setApiKey (k : string) (this : ImgBBService) : ImgBBService :=
  {| apiKey := k; baseUrl := baseUrl this |}.

Definition isConfigured (this : ImgBBService) : bool := string_truthy (apiKey this).

(** [fileToBase64(file)]: the promise resolves with [result.split(',')[1]]
    (undefined when there is no comma), or rejects. *)
Definition fileToBase64 (file : File) : completion (option string) :=
  match readAsDataURL browser file with
  | Loaded (Some result) => Normal (nth_error (split_comma result) 1)
  | Loaded None => Throw (Error "Failed to convert file to base64")
  | Failed ev => Throw ev
  end.

(** The [FormData] that [uploadFile] builds, once the image text is known. *)
Definition uploadForm (this : ImgBBService) (image : string)
  (options : ImgBBUploadOptions number) : pairs :=
  let formData : pairs := [] in
  let formData := append "key" (apiKey this) formData in
  let formData := append "image" image formData in
  let formData := append_if (name options) string_truthy "name" (fun s => s) formData in
  let formData := append_if (expiration options) number_truthy "expiration" number_toString formData in
  formData.

(** The [try] block of [uploadFile] and its [catch]. *)
Definition post_upload (this : ImgBBService) (formData : pairs) : async value :=
  let req := {| url := apiKey this; method := "POST"; headers := []; body := Some formData |} in
  let attempt : completion value :=
    JS.bind (fetch browser req) (fun r =>
    if negb (ok r) then Throw (Error ("ImgBB upload failed: " ++ statusText r)) else
    JS.bind (json r) (fun result =>
    JS.bind (JS.get "success" result) (fun success =>
    if negb (truthy success) then Throw (Error "ImgBB upload failed")
    else Normal result))) in
  match attempt with
  | Normal result => (Normal result, [Fetched req])
  | Throw error => (Throw error, [Fetched req; ConsoleError "Error uploading to ImgBB:" error])
  end.

Definition uploadFile (this : ImgBBService) (file : File + string)
  (options : ImgBBUploadOptions number) : async value :=
  if negb (string_truthy (apiKey this))
  then (Throw (Error "ImgBB API key is not configured"), [])
  else
    match file with
    | inr base64 => post_upload this (uploadForm this base64 options)
    | inl f =>
        match fileToBase64 f with
        | Normal base64 =>
            let (result, evs) := post_upload this (uploadForm this (form_text base64) options) in
            (result, ReadAsDataURL f :: evs)
        | Throw error => (Throw error, [ReadAsDataURL f])
        end
    end.

(** *** The optional members, one by one *)

(** The value an optional member holds. *)
Inductive member : Type :=
| MString (s : string)
| MNumber (n : number)
| MBool (b : bool).

(** ToBoolean of a member's value. *)
Definition member_truthy (x : member) : bool :=
  match x with
  | MString s => string_truthy s
  | MNumber n => number_truthy n
  | MBool b => b
  end.

(** String(x), the text of a member's value. *)
Definition member_text (x : member) : string :=
  match x with
  | MString s => s
  | MNumber n => number_toString n
  | MBool b => if b then "true" else "false"
  end.

Inductive image_field : Type :=
| F_model | F_width | F_height | F_seed | F_enhance | F_negative_prompt
| F_nologo | F_safe | F_quality | F_transparent | F_guidance_scale.

Definition image_field_name (f : image_field) : string :=
  match f with
  | F_model => "model" | F_width => "width" | F_height => "height"
  | F_seed => "seed" | F_enhance => "enhance"
  | F_negative_prompt => "negative_prompt" | F_nologo => "nologo"
  | F_safe => "safe" | F_quality => "quality"
  | F_transparent => "transparent" | F_guidance_scale => "guidance_scale"
  end.

(** [options[f]]: [None] when the member is absent. *)
Definition image_member (options : ImageGenerationOptions number) (f : image_field)
  : option member :=
  match f with
  | F_model => option_map (fun m => MString (image_model_name m)) (model options)
  | F_width => option_map MNumber (width options)
  | F_height => option_map MNumber (height options)
  | F_seed => option_map MNumber (seed options)
  | F_enhance => option_map MBool (enhance options)
  | F_negative_prompt => option_map MString (negative_prompt options)
  | F_nologo => option_map MBool (nologo options)
  | F_safe => option_map MBool (safe options)
  | F_quality => option_map (fun q => MString (image_quality_name q)) (quality options)
  | F_transparent => option_map MBool (transparent options)
  | F_guidance_scale => option_map MNumber (guidance_scale options)
  end.

Inductive video_field : Type :=
| V_model | V_duration | V_aspectRatio | V_audio | V_referenceImage.

(** The query parameter a member goes under. *)
Definition video_field_name (f : video_field) : string :=
  match f with
  | V_model => "model" | V_duration => "duration" | V_aspectRatio => "aspectRatio"
  | V_audio => "audio" | V_referenceImage => "image"
  end.

Definition video_member (options : VideoGenerationOptions number) (f : video_field)
  : option member :=
  match f with
  | V_model => option_map (fun m => MString (video_model_name m)) (video_model_of options)
  | V_duration => option_map MNumber (duration options)
  | V_aspectRatio => option_map (fun a => MString (aspect_ratio_name a)) (aspectRatio options)
  | V_audio => option_map MBool (audio options)
  | V_referenceImage => option_map MString (referenceImage options)
  end.

Inductive upload_field : Type := U_name | U_expiration.

Definition upload_field_name (f : upload_field) : string :=
  match f with U_name => "name" | U_expiration => "expiration" end.

Definition upload_member (options : ImgBBUploadOptions number) (f : upload_field)
  : option member :=
  match f with
  | U_name => option_map MString (name options)
  | U_expiration => option_map MNumber (expiration options)
  end.

(** A flag that is false, or a string that is empty. *)
Definition unset (x : member) : Prop := x = MBool false \/ x = MString "".

(** How the optional members [field] of an options structure show in the
    pairs [sent], each under the name [name_of] gives it: what is sent comes
    from a present member and is its text; a present member with a truthy
    value is sent; a present flag that is false, or string that is empty, is
    not sent. *)
Definition serializes {F : Type} (name_of : F -> string) (field : F -> option member)
  (sent : pairs) : Prop :=
  (forall f v, In (name_of f, v) sent -> exists x, field f = Some x /\ v = member_text x) /\
  (forall f x, field f = Some x -> member_truthy x = true -> In (name_of f, member_text x) sent) /\
  (forall f x, field f = Some x -> unset x -> forall v, ~ In (name_of f, v) sent).

(** The requests issued, in order, in a trace. *)
Fixpoint requests (evs : list event) : list request :=
  match evs with
  | [] => []
  | Fetched r :: rest => r :: requests rest
  | _ :: rest => requests rest
  end.

End Wrappers.

End Services.

(* ===================================================================== *)
(** ** Sample data, after the repository's tests *)
(* ===================================================================== *)

Module Examples.
Import JS Registry.

Definition template (k u : string) : ProviderTemplate :=
  {| provider := k; base_url := u; settings := []; optional := [] |}.

Definition test_provider : ProviderTemplate := template "test-provider" "https://api.test.com".

Definition test_provider' : ProviderTemplate :=
  {| provider := "test-provider"; base_url := "https://api.test2.com"; settings := [];
     optional := [("active", VBool true)] |}.

Definition provider1 : ProviderTemplate := template "provider1" "https://api.provider1.com".
Definition provider2 : ProviderTemplate := template "provider2" "https://api.provider2.com".

(** Listener 1 throws (the test's [errorCallback]); the others return. *)
Definition run_ex (c : JSSet.ref) (m : JSMap.t ProviderTemplate) : option exn :=
  if Nat.eqb c 1 then Some (Error "Callback error") else None.

Definition quiet (c : JSSet.ref) (m : JSMap.t ProviderTemplate) : option exn := None.

(** Listeners 1 and 2 subscribed, then [test_provider] registered. *)
Definition w_ex : world :=
  snd (perform run_ex (RegisterProvider test_provider)
    (snd (onProvidersChanged 2
      (snd (onProvidersChanged 1 instance))))).

(** A bundle with one well-formed entry and one without [base_url]. *)
Definition half_valid_config : value :=
  VObject
    [("version", VString "1.0");
     ("providers",
      VArray
        [VObject [("provider", VString "good"); ("base_url", VString "https://api.good.com");
                  ("settings", VArray [])];
         VObject [("provider", VString "test"); ("settings", VArray [])]])].

(** A bundle whose only element is null. *)
Definition null_element_config : value :=
  VObject [("version", VString "1.0"); ("providers", VArray [VNull])].

(** *** The browser's two encoders

    A [string] is read here as the bytes of the text in UTF-8, a lone
    surrogate (which a JavaScript string can hold and UTF-8 cannot) as the
    three bytes ED A0..BF 80..BF that its code point would take. *)

Definition in_range (lo hi : N) (c : ascii) : bool :=
  ((lo <=? N_of_ascii c) && (N_of_ascii c <=? hi))%N.

Definition alphanumeric (c : ascii) : bool :=
  in_range 48 57 c || in_range 65 90 c || in_range 97 122 c.

Definition hex_digit (n : N) : ascii :=
  ascii_of_N (if (n <? 10)%N then 48 + n else 55 + n).

(** [%XX] for a byte, in upper-case hexadecimal. *)
Definition percent_byte (c : ascii) : string :=
  String "%" (String (hex_digit (N_of_ascii c / 16))
             (String (hex_digit (N_of_ascii c mod 16)) EmptyString)).

(** The first two bytes of a surrogate. *)
Definition surrogate_lead (c d : ascii) : bool :=
  (N_of_ascii c =? 237)%N && in_range 160 191 d.

(** What [encodeURIComponent] leaves as it is: letters, digits and
    [- _ . ! ~ * ' ( )]. *)
Definition uri_unreserved (c : ascii) : bool :=
  alphanumeric c ||
  existsb (Ascii.eqb c) ["-"; "_"; "."; "!"; "~"; "*"; "'"; "("; ")"]%char.

(** [encodeURIComponent(s)]: every other byte of the UTF-8 text as [%XX]; a
    URIError (with the message V8 gives it) on a lone surrogate. *)
Fixpoint uri_encode (s : string) : completion string :=
  match s with
  | EmptyString => Normal EmptyString
  | String c rest =>
      let lone :=
        match rest with
        | String d _ => surrogate_lead c d
        | EmptyString => false
        end in
      if lone then Throw (URIError "URI malformed")
      else
        JS.bind (uri_encode rest) (fun encoded =>
        Normal ((if uri_unreserved c then String c EmptyString else percent_byte c)
                ++ encoded)%string)
  end.

(** One byte in [application/x-www-form-urlencoded]: letters, digits and
    [* - . _] as they are, a space as [+], the rest as [%XX]. *)
Definition form_byte (c : ascii) : string :=
  if alphanumeric c || existsb (Ascii.eqb c) ["*"; "-"; "."; "_"]%char
  then String c EmptyString
  else if Ascii.eqb c " "%char then "+" else percent_byte c.

(** A name or a value of [URLSearchParams], serialized; a lone surrogate
    has become U+FFFD when it was appended. *)
Fixpoint form_urlencoded (s : string) : string :=
  match s with
  | EmptyString => EmptyString
  | String c rest =>
      match rest with
      | String d (String _ rest') =>
          if surrogate_lead c d then ("%EF%BF%BD" ++ form_urlencoded rest')%string
          else (form_byte c ++ form_urlencoded rest)%string
      | _ => (form_byte c ++ form_urlencoded rest)%string
      end
  end.

(** A browser whose server accepts every upload. *)
Definition accepting : Services.platform :=
  {| Services.fetch := fun _ =>
       Normal {| Services.ok := true; Services.statusText := "OK";
                 Services.json := Normal (VObject [("success", VBool true)]);
                 Services.blob := Normal "" |};
     Services.readAsDataURL := fun f =>
       Services.Loaded (Some ("data:image/png;base64," ++ Services.file_bytes f)%string);
     Services.encodeURIComponent := uri_encode;
     Services.params_toString := fun p =>
       String.concat "&"
         (List.map (fun kv => (form_urlencoded (fst kv) ++ "=" ++ form_urlencoded (snd kv))%string)
                   p) |}.

(** The one-character string that holds the lone surrogate U+D800. *)
Definition lone_surrogate : string :=
  String (ascii_of_N 237) (String (ascii_of_N 160) (String (ascii_of_N 128) EmptyString)).

Definition safe (n : Z) (is_safe : (Z.abs n <=? Services.MAX_SAFE_INTEGER)%Z = true)
  : Services.SafeInteger :=
  {| Services.integer := n; Services.is_safe := is_safe |}.

(** The service after [setApiKey('abc123')]. *)
Definition configured : Services.ImgBBService :=
  Services.setApiKey "abc123" (Services.new_ImgBBService None).

(** The service as constructed without [VITE_IMGBB_API_KEY]. *)
Definition unconfigured : Services.ImgBBService := Services.new_ImgBBService None.

Definition no_upload_options : Services.ImgBBUploadOptions Services.SafeInteger :=
  {| Services.name := None; Services.expiration := None |}.

(** Flags that are present and false, strings that are present and empty. *)
Definition falsy_image_options : Services.ImageGenerationOptions Services.SafeInteger :=
  {| Services.model := None; Services.width := None; Services.height := None;
     Services.seed := None; Services.enhance := Some false;
     Services.negative_prompt := Some ""; Services.nologo := None;
     Services.safe := None; Services.quality := None;
     Services.transparent := None; Services.guidance_scale := None |}.

Definition falsy_video_options : Services.VideoGenerationOptions Services.SafeInteger :=
  {| Services.video_model_of := None; Services.duration := None;
     Services.aspectRatio := None; Services.audio := Some false;
     Services.referenceImage := Some "" |}.

Definition falsy_upload_options : Services.ImgBBUploadOptions Services.SafeInteger :=
  {| Services.name := Some ""; Services.expiration := None |}.

End Examples.

(* ===================================================================== *)
(** ** The rest of [PollinationsService] and [ImgBBService] *)
(* ===================================================================== *)

Module Pollinations.
Import JS Services.

(** [v?.name]: undefined on null and undefined instead of a throw. *)
Definition opt_get (name : string) (v : value) : value :=
  match v with
  | VObject props =>
      match lookup name props with
      | Some x => x
      | None => VUndefined
      end
  | _ => VUndefined
  end.

(** [v?.[0]]: the first element of an array, the property "0" of an
    object, the first character of a string, undefined otherwise. *)
Definition opt_index0 (v : value) : value :=
  match v with
  | VArray (x :: _) => x
  | VObject props =>
      match lookup "0" props with
      | Some x => x
      | None => VUndefined
      end
  | VString (String c _) => VString (String c EmptyString)
  | _ => VUndefined
  end.

(** [new PollinationsService()], with the value of
    [VITE_POLLINATIONS_API_KEY] when set. *)
Definition new_PollinationsService (env_key : option string) : PollinationsService :=
  {| pollinations_apiKey := match env_key with
                            | Some k => if string_truthy k then k else ""
                            | None => ""
                            end;
     pollinations_baseUrl := "https://gen.pollinations.ai" |}.

Definition isConfigured (this : PollinationsService) : bool :=
  string_truthy (pollinations_apiKey this).

Definition setApiKey (apiKey : string) (this : PollinationsService) : PollinationsService :=
  {| pollinations_apiKey := apiKey; pollinations_baseUrl := pollinations_baseUrl this |}.

Definition setBaseUrl (baseUrl : string) (this : PollinationsService) : PollinationsService :=
  {| pollinations_apiKey := pollinations_apiKey this; pollinations_baseUrl := baseUrl |}.

(** One element of [messages]. *)
Record message : Type := { role : string; content : string }.

(** [interface TextGenerationOptions]; [None] is an absent member. *)
Record TextGenerationOptions (number : Type) : Type := {
  text_model : option string;
  temperature : option number;
  stream : option bool;
  system : option string;
  text_seed : option number
}.

(** The object [generateText] passes to [JSON.stringify].  [body_model],
    [body_messages] and [body_stream] are always there; a [None] is a member
    that is undefined or not there, which [JSON.stringify] leaves out alike. *)
Record chat_body (number : Type) : Type := {
  body_model : string;
  body_messages : list message;
  body_temperature : option number;
  body_stream : bool;
  body_system : option string;
  body_seed : option number
}.

(** A request whose body is the JSON text of a [chat_body]. *)
Record chat_request (number : Type) : Type := {
  chat_url : string;
  chat_method : string;
  chat_headers : pairs;
  chat_payload : chat_body number
}.

Inductive chat_event (number : Type) : Type :=
| Posted (r : chat_request number)
| ChatConsoleError (label : string) (e : exn).
Arguments ChatConsoleError {number} label e.

(** The requests posted, in order, in a trace. *)
Fixpoint posted {number : Type} (evs : list (chat_event number)) : list (chat_request number) :=
  match evs with
  | [] => []
  | Posted r :: rest => r :: posted rest
  | ChatConsoleError _ _ :: rest => posted rest
  end.

(** The errors written to the console, in order, in a trace. *)
Fixpoint logged (evs : list event) : list exn :=
  match evs with
  | [] => []
  | ConsoleError _ e :: rest => e :: logged rest
  | _ :: rest => logged rest
  end.

Section Methods.

Context {number : Type} `{JSNumber number}.
Variable browser : platform.

(** [fetch] on a request with a JSON body. *)
Variable post_json : chat_request number -> completion response.

(** The object literal [body] of [generateText]. *)
Definition chatBody (messages : list message) (options : TextGenerationOptions number)
  : chat_body number :=
  {| body_model := match text_model options with
                   | Some m => if string_truthy m then m else "openai"
                   | None => "openai"
                   end;
     body_messages := messages;
     body_temperature := temperature options;
     body_stream := match stream options with
                    | Some b => b
                    | None => false
                    end;
     body_system := match system options with
                    | Some s => if string_truthy s then Some s else None
                    | None => None
                    end;
     body_seed := match text_seed options with
                  | Some n => if number_truthy n then Some n else None
                  | None => None
                  end |}.

(** [data.choices?.[0]?.message?.content || ''] *)
Definition first_content (data : value) : completion value :=
  JS.bind (JS.get "choices" data) (fun choices =>
  let content := opt_get "content" (opt_get "message" (opt_index0 choices)) in
  Normal (if truthy content then content else VString "")).

Definition generateText (this : PollinationsService) (messages : list message)
  (options : TextGenerationOptions number) : completion value * list (chat_event number) :=
  let target := (pollinations_baseUrl this ++ "/v1/chat/completions")%string in
  let hdrs := ("Content-Type", "application/json") :: authorization (pollinations_apiKey this) in
  let req := {| chat_url := target; chat_method := "POST"; chat_headers := hdrs;
                chat_payload := chatBody messages options |} in
  let attempt : completion value :=
    JS.bind (post_json req) (fun r =>
    if negb (ok r) then Throw (Error ("Text generation failed: " ++ statusText r)) else
    JS.bind (json r) first_content) in
  match attempt with
  | Normal text => (Normal text, [Posted req])
  | Throw error => (Throw error, [Posted req; ChatConsoleError "Error generating text:" error])
  end.

Definition getTextModels (this : PollinationsService) : async value :=
  let target := (pollinations_baseUrl this ++ "/v1/models")%string in
  let req := {| url := target; method := "GET";
                headers := authorization (pollinations_apiKey this); body := None |} in
  let attempt : completion value :=
    JS.bind (fetch browser req) (fun r =>
    if negb (ok r) then Throw (Error ("Failed to fetch models: " ++ statusText r))
    else json r) in
  match attempt with
  | Normal models => (Normal models, [Fetched req])
  | Throw error => (Throw error, [Fetched req; ConsoleError "Error fetching text models:" error])
  end.

Definition getImageModels (this : PollinationsService) : async value :=
  let target := (pollinations_baseUrl this ++ "/image/models")%string in
  let req := {| url := target; method := "GET";
                headers := authorization (pollinations_apiKey this); body := None |} in
  let attempt : completion value :=
    JS.bind (fetch browser req) (fun r =>
    if negb (ok r) then Throw (Error ("Failed to fetch image models: " ++ statusText r))
    else json r) in
  match attempt with
  | Normal models => (Normal models, [Fetched req])
  | Throw error => (Throw error, [Fetched req; ConsoleError "Error fetching image models:" error])
  end.

End Methods.

End Pollinations.

Module ImgBB.
Import JS Services.

(** How [Promise.all] can settle on promises that settle as [settled]: with
    all the values, in order, when every one is fulfilled; with the reason of
    a rejected one otherwise (the first to reject in time, which the order of
    the list does not tell). *)
Inductive Promise_all {A : Type} : list (completion A) -> completion (list A) -> Prop :=
| all_fulfilled values :
    Promise_all (List.map Normal values) (Normal values)
| all_rejected settled reason :
    In (Throw reason) settled -> Promise_all settled (Throw reason).

Section Methods.

Context {number : Type} `{JSNumber number}.
Variable browser : platform.

(** [files.map((file) => this.uploadFile(file, options))]: every upload is
    started; each has its own outcome and trace. *)
Definition uploads (this : ImgBBService) (files : list (File + string))
  (options : ImgBBUploadOptions number) : list (async value) :=
  List.map (fun file => uploadFile browser this file options) files.

(** [uploadMultiple(files, options)] can settle as [outcome]. *)
Definition uploadMultiple (this : ImgBBService) (files : list (File + string))
  (options : ImgBBUploadOptions number) (outcome : completion (list value)) : Prop :=
  Promise_all (List.map fst (uploads this files options)) outcome.

End Methods.

(** A string without a comma. *)
Fixpoint comma_free (s : string) : bool :=
  match s with
  | EmptyString => true
  | String c rest => negb (Ascii.eqb c ","%char) && comma_free rest
  end.

End ImgBB.

(* ===================================================================== *)
(** ** The hooks that call the registry and the wrappers
       ([src/hooks/useProviderRegistry.ts], [src/hooks/useAIGeneration.ts]) *)
(* ===================================================================== *)

Module Hooks.
Import JS.

(** [err instanceof Error ? err.message : fallback]; a [Thrown] value is
    one that is no Error. *)
Definition error_message (err : exn) (fallback : string) : string :=
  match err with
  | Error message => message
  | TypeError message => message
  | URIError message => message
  | Thrown _ => fallback
  end.

(** *** [useProviderRegistry] *)

Section ProviderRegistryHook.
Import Registry.

Variable run : JSSet.ref -> JSMap.t ProviderTemplate -> option exn.

(** The entries of the model provider store.  Their type is declared
    outside these sources; the hook reads their [provider] and casts the
    registry's templates to it. *)
Variable ModelProvider : Type.
Variable provider_of : ModelProvider -> string.
Variable as_ModelProvider : ProviderTemplate -> ModelProvider.

(** [obj.name = v] on a property list: in place when the name is there, at
    the end otherwise. *)
Fixpoint assign (name : string) (v : value) (props : list (string * value))
  : list (string * value) :=
  match props with
  | [] => [(name, v)]
  | (k, x) :: rest => if k =? name then (k, v) :: rest else (k, x) :: assign name v rest
  end.

(** [{ ...p, models: p.models || [] }] *)
Definition with_models (p : ProviderTemplate) : ProviderTemplate :=
  let models :=
    match lookup "models" (optional p) with
    | Some m => if truthy m then m else VArray []
    | None => VArray []
    end in
  {| provider := provider p; base_url := base_url p; settings := settings p;
     optional := assign "models" models (optional p) |}.

(** [names.includes(k)] *)
Definition includes (names : list string) (k : string) : bool :=
  existsb (fun n => n =? k) names.

(** The body of the effect that syncs the registry into the store: what it
    passes to [setProviders], or [None] when it does not call it. *)
Definition syncProviders (externalProviders : list ProviderTemplate)
  (providers : list ModelProvider) : option (list ModelProvider) :=
  if Nat.ltb 0 (length externalProviders) then
    let externalProviderNames := List.map provider externalProviders in
    let existingProviders :=
      filter (fun p => negb (includes externalProviderNames (provider_of p))) providers in
    Some (existingProviders ++
          List.map (fun p => as_ModelProvider (with_models p)) externalProviders)
  else None.

(** What the hook's callbacks do besides calling the registry. *)
Inductive registry_hook_event : Type :=
| SetError (message : option string)
| SetLoading (b : bool)
| LogError (label : string) (e : exn).

(** [loadFromConfig(config)] *)
Definition loadFromConfig (config : value) (w : world) : list registry_hook_event * world :=
  match loadProvidersFromConfig run config w with
  | (Normal _, w') => ([SetError None], w')
  | (Throw err, w') =>
      ([SetError None;
        SetError (Some (error_message err "Failed to load providers from config"));
        LogError "Error loading providers from config:" err], w')
  end.

(** [loadFromUrl(url)], given what the fetch comes back with. *)
Definition loadFromUrl (url : string) (fetched : completion response) (w : world)
  : list registry_hook_event * world :=
  match loadProvidersFromUrl run url fetched w with
  | (Normal _, w') => ([SetLoading true; SetError None; SetLoading false], w')
  | (Throw err, w') =>
      ([SetLoading true; SetError None;
        SetError (Some (error_message err "Failed to load providers from URL"));
        LogError "Error loading providers from URL:" err;
        SetLoading false], w')
  end.

End ProviderRegistryHook.

(** *** [useAIGeneration] *)

Import Services.

(** [interface GenerationResult] *)
Record GenerationResult : Type := {
  result_url : option string;
  result_blob : option string;
  result_error : option string
}.

Inductive generation_event : Type :=
| SetIsGenerating (b : bool)
| SetGenerationError (message : option string)
| Did (e : Services.event).

Section AIGenerationHook.

Context {number : Type} `{JSNumber number}.
Variable browser : platform.

(** [URL.createObjectURL(blob)] *)
Variable createObjectURL : string -> string.

(** The text a value that is no string becomes when appended to
    [URLSearchParams]. *)
Variable String_of : value -> string.

Definition text_of (v : value) : string :=
  match v with
  | VString s => s
  | _ => String_of v
  end.

(** [generateImage(prompt, options)] of the hook: never rejects. *)
Definition generateImage (pollinations : PollinationsService) (prompt : string)
  (options : ImageGenerationOptions number) : GenerationResult * list generation_event :=
  let (settled, evs) := Services.generateImage browser pollinations prompt options in
  match settled with
  | Normal blob =>
      ({| result_url := Some (createObjectURL blob); result_blob := Some blob;
          result_error := None |},
       [SetIsGenerating true; SetGenerationError None] ++ List.map Did evs
       ++ [SetIsGenerating false])
  | Throw err =>
      let errorMessage := error_message err "Failed to generate image" in
      ({| result_url := None; result_blob := None; result_error := Some errorMessage |},
       [SetIsGenerating true; SetGenerationError None] ++ List.map Did evs
       ++ [SetGenerationError (Some errorMessage); SetIsGenerating false])
  end.

(** [generateVideo(prompt, options)] of the hook: never rejects. *)
Definition generateVideo (pollinations : PollinationsService) (prompt : string)
  (options : VideoGenerationOptions number) : GenerationResult * list generation_event :=
  let (settled, evs) := Services.generateVideo browser pollinations prompt options in
  match settled with
  | Normal blob =>
      ({| result_url := Some (createObjectURL blob); result_blob := Some blob;
          result_error := None |},
       [SetIsGenerating true; SetGenerationError None] ++ List.map Did evs
       ++ [SetIsGenerating false])
  | Throw err =>
      let errorMessage := error_message err "Failed to generate video" in
      ({| result_url := None; result_blob := None; result_error := Some errorMessage |},
       [SetIsGenerating true; SetGenerationError None] ++ List.map Did evs
       ++ [SetGenerationError (Some errorMessage); SetIsGenerating false])
  end.

(** [uploadFile(file, options)] of the hook: resolves with [result.data],
    rethrows what the service throws. *)
Definition uploadFile (imgbb : ImgBBService) (file : File + string)
  (options : ImgBBUploadOptions number) : completion value * list generation_event :=
  let (settled, evs) := Services.uploadFile browser imgbb file options in
  match JS.bind settled (JS.get "data") with
  | Normal data =>
      (Normal data,
       [SetIsGenerating true; SetGenerationError None] ++ List.map Did evs
       ++ [SetIsGenerating false])
  | Throw err =>
      (Throw err,
       [SetIsGenerating true; SetGenerationError None] ++ List.map Did evs
       ++ [SetGenerationError (Some (error_message err "Failed to upload file"));
           SetIsGenerating false])
  end.

(** The query of [generateVideo] when the reference image is the run-time
    value [reference] (the [url] the upload answered with). *)
Definition videoParamsWith (options : VideoGenerationOptions number) (reference : value)
  : pairs :=
  let params : pairs := [] in
  let params := append_if (video_model_of options) (fun _ => true) "model" video_model_name params in
  let params := append_if (duration options) number_truthy "duration" number_toString params in
  let params := append_if (aspectRatio options) (fun _ => true) "aspectRatio" aspect_ratio_name params in
  let params := append_if (audio options) (fun b => b) "audio" (fun _ => "true") params in
  let params := if truthy reference then append "image" (text_of reference) params else params in
  params.

(** [pollinationsService.generateVideo(prompt, { ...options, referenceImage })] *)
Definition generateVideoWith (this : PollinationsService) (prompt : string)
  (options : VideoGenerationOptions number) (reference : value) : async string :=
  let params := videoParamsWith options reference in
  match encodeURIComponent browser prompt with
  | Throw error => (Throw error, [])
  | Normal encoded =>
      let target := (pollinations_baseUrl this ++ "/image/" ++ encoded ++ "?"
                     ++ params_toString browser params)%string in
      let req := {| url := target; method := "GET";
                    headers := authorization (pollinations_apiKey this); body := None |} in
      let attempt : completion string :=
        JS.bind (fetch browser req) (fun r =>
        if negb (ok r) then Throw (Error ("Video generation failed: " ++ statusText r))
        else blob r) in
      match attempt with
      | Normal b => (Normal b, [Fetched req])
      | Throw error => (Throw error, [Fetched req; ConsoleError "Error generating video:" error])
      end
  end.

(** [generateVideoWithReference(prompt, referenceFile, options)]: the upload
    first, then the generation with the uploaded image's URL. *)
Definition generateVideoWithReference (pollinations : PollinationsService)
  (imgbb : ImgBBService) (prompt : string) (referenceFile : File)
  (options : VideoGenerationOptions number) : GenerationResult * list generation_event :=
  let (uploaded, evs1) :=
    Services.uploadFile browser imgbb (inl referenceFile)
      {| name := Some "video-reference"; expiration := None |} in
  let (settled, evs) :=
    match JS.bind uploaded (fun uploadResult =>
          JS.bind (JS.get "data" uploadResult) (JS.get "url")) with
    | Throw err => (Throw err, evs1)
    | Normal reference =>
        let (generated, evs2) := generateVideoWith pollinations prompt options reference in
        (generated, evs1 ++ evs2)
    end in
  match settled with
  | Normal blob =>
      ({| result_url := Some (createObjectURL blob); result_blob := Some blob;
          result_error := None |},
       [SetIsGenerating true; SetGenerationError None] ++ List.map Did evs
       ++ [SetIsGenerating false])
  | Throw err =>
      let errorMessage := error_message err "Failed to generate video with reference" in
      ({| result_url := None; result_blob := None; result_error := Some errorMessage |},
       [SetIsGenerating true; SetGenerationError None] ++ List.map Did evs
       ++ [SetGenerationError (Some errorMessage); SetIsGenerating false])
  end.

(** [{ ...options, referenceImage: u }] for a string [u]. *)
Definition with_reference (options : VideoGenerationOptions number) (u : string)
  : VideoGenerationOptions number :=
  {| video_model_of := video_model_of options; duration := duration options;
     aspectRatio := aspectRatio options; audio := audio options;
     referenceImage := Some u |}.

End AIGenerationHook.

(** The requests among the hook's events. *)
Fixpoint hook_requests (evs : list generation_event) : list request :=
  match evs with
  | [] => []
  | Did (Fetched r) :: rest => r :: hook_requests rest
  | _ :: rest => hook_requests rest
  end.

End Hooks.

(* ===================================================================== *)
(** ** More sample data *)
(* ===================================================================== *)

Module MoreExamples.
Import JS Registry.

(** A bundle of two well-formed entries. *)
Definition valid_config : value :=
  VObject
    [("version", VString "1.0");
     ("providers",
      VArray
        [VObject [("provider", VString "good"); ("base_url", VString "https://api.good.com");
                  ("settings", VArray []); ("models", VArray [])];
         VObject [("provider", VString "better"); ("base_url", VString "https://api.better.com");
                  ("settings", VArray [])]])].

(** The response of a server that answers with [valid_config]. *)
Definition valid_response : response :=
  {| ok := true; statusText := "OK"; json := Normal valid_config |}.

Definition reference_file : Services.File :=
  {| Services.file_name := "reference.png"; Services.file_bytes := "aGVsbG8=" |}.

(** The service as constructed without [VITE_POLLINATIONS_API_KEY]. *)
Definition pollinations : Services.PollinationsService :=
  Pollinations.new_PollinationsService None.

(** A model, a width and a seed; no other member. *)
Definition sized_image_options : Services.ImageGenerationOptions Services.SafeInteger :=
  {| Services.model := Some Services.flux;
     Services.width := Some (Examples.safe 512 eq_refl);
     Services.height := None;
     Services.seed := Some (Examples.safe 42 eq_refl);
     Services.enhance := None; Services.negative_prompt := None; Services.nologo := None;
     Services.safe := None; Services.quality := None; Services.transparent := None;
     Services.guidance_scale := None |}.

End MoreExamples.

(* ===================================================================== *)
(** ** Proof steps for the per-member statements *)
(* ===================================================================== *)

Module ServicesTactics.
Import JS Services.

(** Finds, in a nest of disjunctions, a disjunct that [eauto] proves. *)
Ltac pick_disjunct :=
  first [ solve [eauto 6] | right; solve [eauto 6] | left; pick_disjunct ].

(** Splits the hypotheses of the shape [In_append_if] leaves. *)
Ltac break_appended :=
  repeat match goal with
         | Hx : _ \/ _ |- _ => destruct Hx as [Hx|Hx]
         | Hx : exists _, _ |- _ => destruct Hx as [? Hx]
         | Hx : _ /\ _ |- _ => destruct Hx as [? Hx]
         | Hx : In _ [] |- _ => destruct Hx
         | Hx : False |- _ => destruct Hx
         | Hx : (_, _) = (_, _) |- _ =>
             first [ discriminate Hx | injection Hx; clear Hx; intros; subst ]
         end.

(** Closes the three parts of "this member is present, truthy, and printed
    so" once the member's value is known. *)
Ltac close_member :=
  simpl in *; subst;
  match goal with
  | Ho : _ = Some _ |- exists _, _ => rewrite Ho; simpl; eexists; split; [reflexivity|]
  end;
  split;
  first [ assumption | reflexivity
        | match goal with a : image_model |- _ => destruct a; reflexivity end
        | match goal with a : image_quality |- _ => destruct a; reflexivity end
        | match goal with a : video_model |- _ => destruct a; reflexivity end
        | match goal with a : aspect_ratio |- _ => destruct a; reflexivity end ].

End ServicesTactics.

(* ===================================================================== *)
(** ** Facts about the containers *)
(* ===================================================================== *)

Module JSMapFacts.
Import JSMap.

Section Facts.
Variable V : Type.
Implicit Types (m : JSMap.t V) (k : string) (v : V).

Lemma get_set_eq k v m : get k (set k v m) = Some v.
Proof.
  induction m as [|[k' v'] rest IH]; simpl.
  - now rewrite String.eqb_refl.
  - destruct (k' =? k) eqn:E; simpl.
    + now rewrite String.eqb_refl.
    + now rewrite E.
Qed.

Lemma get_set_ne k k' v m : k <> k' -> get k' (set k v m) = get k' m.
Proof.
  intros Hne. induction m as [|[k0 v0] rest IH]; simpl.
  - destruct (String.eqb_spec k k'); [contradiction | reflexivity].
  - destruct (String.eqb_spec k0 k) as [->|Hk0]; simpl.
    + destruct (String.eqb_spec k k'); [contradiction | reflexivity].
    + destruct (k0 =? k'); [reflexivity | exact IH].
Qed.

Lemma has_get k m : has k m = match get k m with Some _ => true | None => false end.
Proof.
  induction m as [|[k' v'] rest IH]; simpl; [reflexivity|].
  destruct (k' =? k); [reflexivity | exact IH].
Qed.

Lemma has_true_iff k m : has k m = true <-> exists v, get k m = Some v.
Proof.
  rewrite has_get. destruct (get k m) as [v|]; split.
  - intros _. now exists v.
  - reflexivity.
  - discriminate.
  - intros [v Hv]. discriminate.
Qed.

Lemma get_delete_eq k m : get k (delete k m) = None.
Proof.
  unfold delete. induction m as [|[k' v'] rest IH]; simpl; [reflexivity|].
  destruct (k' =? k) eqn:E; simpl; [exact IH | now rewrite E].
Qed.

Lemma get_delete_ne k k' m : k <> k' -> get k' (delete k m) = get k' m.
Proof.
  intros Hne. unfold delete. induction m as [|[k0 v0] rest IH]; simpl; [reflexivity|].
  destruct (String.eqb_spec k0 k) as [->|Hk0]; simpl.
  - destruct (String.eqb_spec k k'); [contradiction | exact IH].
  - destruct (k0 =? k'); [reflexivity | exact IH].
Qed.

Lemma delete_absent k m : get k m = None -> delete k m = m.
Proof.
  unfold delete. induction m as [|[k' v'] rest IH]; simpl; [reflexivity|].
  destruct (k' =? k); [discriminate|]. intros Hg. simpl. now rewrite IH.
Qed.

Lemma length_set k v m :
  length (set k v m) = if has k m then length m else S (length m).
Proof.
  induction m as [|[k' v'] rest IH]; simpl; [reflexivity|].
  destruct (k' =? k); simpl; [reflexivity|].
  rewrite IH. now destruct (has k rest).
Qed.

Lemma has_set k v m : has k (set k v m) = true.
Proof. rewrite has_get, get_set_eq. reflexivity. Qed.

Lemma set_set k v1 v2 m : set k v2 (set k v1 m) = set k v2 m.
Proof.
  induction m as [|[k' v'] rest IH]; simpl.
  - now rewrite String.eqb_refl.
  - destruct (k' =? k) eqn:E; simpl.
    + now rewrite String.eqb_refl.
    + now rewrite E, IH.
Qed.

Lemma get_In k v m : get k m = Some v -> In (k, v) m.
Proof.
  induction m as [|[k' v'] rest IH]; simpl; [discriminate|].
  destruct (String.eqb_spec k' k) as [->|Hne].
  - intros [= ->]. now left.
  - intros Hg. right. now apply IH.
Qed.

Lemma In_set k v m kv : In kv (set k v m) -> kv = (k, v) \/ In kv m.
Proof.
  induction m as [|[k' v'] rest IH]; simpl.
  - intros [<-|[]]. now left.
  - destruct (k' =? k); simpl.
    + intros [<-|Hin]; [now left | right; now right].
    + intros [<-|Hin]; [right; now left|].
      destruct (IH Hin) as [->|Hin']; [now left | right; now right].
Qed.

Lemma keys_set k v m :
  keys (set k v m) = if has k m then keys m else keys m ++ [k].
Proof.
  unfold keys. induction m as [|[k' v'] rest IH]; simpl; [reflexivity|].
  destruct (String.eqb_spec k' k) as [->|Hne]; simpl; [reflexivity|].
  rewrite IH. now destruct (has k rest).
Qed.

Lemma has_false_not_In k m : has k m = false -> ~ In k (keys m).
Proof.
  unfold keys. induction m as [|[k' v'] rest IH]; simpl; [tauto|].
  destruct (String.eqb_spec k' k) as [->|Hne]; [discriminate|].
  intros Hh [Heq|Hin]; [contradiction | now apply IH].
Qed.

(** One entry per key, kept by every operation. *)
Lemma NoDup_keys_set k v m : NoDup (keys m) -> NoDup (keys (set k v m)).
Proof.
  intros Hnd. rewrite keys_set. destruct (has k m) eqn:E; [exact Hnd|].
  apply NoDup_app; [exact Hnd | repeat constructor; simpl; tauto |].
  intros x Hx [<-|[]]. now apply (has_false_not_In _ _ E).
Qed.

Lemma NoDup_keys_delete k m : NoDup (keys m) -> NoDup (keys (delete k m)).
Proof.
  unfold keys, delete. induction m as [|[k' v'] rest IH]; simpl; [trivial|].
  intros Hnd. inversion Hnd as [|? ? Hnotin Hnd']; subst.
  destruct (k' =? k); simpl; [now apply IH|].
  constructor; [|now apply IH].
  intros Hin. apply Hnotin. apply in_map_iff in Hin as [[k0 v0] [Hk Hin]].
  apply filter_In in Hin as [Hin _]. apply in_map_iff. now exists (k0, v0).
Qed.

End Facts.
End JSMapFacts.

Module JSSetFacts.
Import JSSet.

Lemma mem_In c s : mem c s = true <-> In c s.
Proof.
  unfold mem. rewrite existsb_exists. split.
  - intros [x [Hin Heq]]. apply Nat.eqb_eq in Heq. now subst.
  - intros Hin. exists c. split; [exact Hin | apply Nat.eqb_refl].
Qed.

Lemma mem_false_not_In c s : mem c s = false <-> ~ In c s.
Proof.
  rewrite <- mem_In. destruct (mem c s); split; congruence.
Qed.

Lemma add_add c s : add c (add c s) = add c s.
Proof.
  unfold add. destruct (mem c s) eqn:E.
  - now rewrite E.
  - replace (mem c (s ++ [c])) with true; [reflexivity|].
    symmetry. apply mem_In, in_or_app. right. now left.
Qed.

Lemma In_delete c d s : In d (delete c s) <-> In d s /\ d <> c.
Proof.
  unfold delete. rewrite filter_In. split; intros [Hin Hne]; split; trivial.
  - intros ->. now rewrite Nat.eqb_refl in Hne.
  - apply negb_true_iff, Nat.eqb_neq. congruence.
Qed.

Lemma mem_delete_eq c s : mem c (delete c s) = false.
Proof. apply mem_false_not_In. rewrite In_delete. tauto. Qed.

Lemma mem_delete_ne c d s : d <> c -> mem d (delete c s) = mem d s.
Proof.
  intros Hne. destruct (mem d s) eqn:E.
  - apply mem_In. apply In_delete. split; [now apply mem_In | exact Hne].
  - apply mem_false_not_In. rewrite In_delete. apply mem_false_not_In in E. tauto.
Qed.

Lemma mem_add c d s : mem d (add c s) = (Nat.eqb c d || mem d s)%bool.
Proof.
  unfold add. destruct (mem c s) eqn:E.
  - destruct (Nat.eqb_spec c d) as [->|Hne]; simpl; [now rewrite E | reflexivity].
  - unfold mem. rewrite existsb_app. simpl. rewrite orb_false_r, orb_comm.
    now rewrite (Nat.eqb_sym d c).
Qed.

Lemma NoDup_add c s : NoDup s -> NoDup (add c s).
Proof.
  intros Hnd. unfold add. destruct (mem c s) eqn:E; [exact Hnd|].
  apply NoDup_app; [exact Hnd | repeat constructor; simpl; tauto |].
  intros x Hx [<-|[]]. now apply (proj1 (mem_false_not_In _ _) E).
Qed.

Lemma NoDup_delete c s : NoDup s -> NoDup (delete c s).
Proof. intros Hnd. unfold delete. now apply NoDup_filter. Qed.

End JSSetFacts.

(* ===================================================================== *)
(** ** The registry: notification, mutations, invariants *)
(* ===================================================================== *)

Module RegistryFacts.
Import JS Registry.
Local Open Scope registry_scope.

Section Facts.
Variable run : JSSet.ref -> JSMap.t ProviderTemplate -> option exn.

Lemma forEach_listeners s : forall w,
  forEach s (fun callback =>
    try_catch (call run callback)
      (fun error => update (emit (ConsoleError "Error in provider change callback:" error)))) w =
  (Normal tt,
   {| externalProviders := externalProviders w;
      providerLoadCallbacks := providerLoadCallbacks w;
      trace := trace w ++ notification run (externalProviders w) s |}).
Proof.
  induction s as [|c s IH]; intros [m cbs tr]; simpl.
  - unfold ret. now rewrite app_nil_r.
  - unfold mbind, try_catch, call, update. simpl.
    destruct (run c m); simpl; rewrite IH; simpl; rewrite <- !app_assoc; reflexivity.
Qed.

(** [notifyListeners] returns, touches neither field, and adds exactly one
    notification to the trace. *)
Lemma notifyListeners_spec w :
  notifyListeners run w =
  (Normal tt,
   {| externalProviders := externalProviders w;
      providerLoadCallbacks := providerLoadCallbacks w;
      trace := trace w ++ notification run (externalProviders w) (providerLoadCallbacks w) |}).
Proof. unfold notifyListeners. apply forEach_listeners. Qed.

(** The loop of [registerProviders] is a left fold of [Map.set]. *)
Lemma forEach_set providers : forall w,
  forEach providers (fun p => update (with_providers (JSMap.set (provider p) p))) w =
  (Normal tt,
   with_providers (fun m => fold_left (fun m p => JSMap.set (provider p) p m) providers m) w).
Proof.
  induction providers as [|p ps IH]; intros [m cbs tr]; simpl.
  - reflexivity.
  - unfold mbind, update. simpl. now rewrite IH.
Qed.

Lemma called_notification m s : called (notification run m s) = s.
Proof.
  induction s as [|c s IH]; simpl; [reflexivity|].
  destruct (run c m); simpl; now rewrite IH.
Qed.

Lemma seen_by_calls_notification m s :
  seen_by_calls (notification run m s) = List.map (fun _ => m) s.
Proof.
  induction s as [|c s IH]; simpl; [reflexivity|].
  destruct (run c m); simpl; now rewrite IH.
Qed.

Lemma count_calls_notification m s c :
  NoDup s ->
  count_calls c (notification run m s) = if JSSet.mem c s then 1 else 0.
Proof.
  intros Hnd. unfold count_calls. rewrite called_notification.
  destruct (JSSet.mem c s) eqn:E.
  - apply JSSetFacts.mem_In in E. now apply NoDup_count_occ'.
  - apply JSSetFacts.mem_false_not_In in E. now apply count_occ_not_In.
Qed.

Lemma thrown_is_logged m s c e :
  In c s -> run c m = Some e ->
  In (ConsoleError "Error in provider change callback:" e) (notification run m s).
Proof.
  intros Hin Hrun. unfold notification. apply in_flat_map. exists c.
  split; [exact Hin|]. rewrite Hrun. right. now left.
Qed.

(** Every mutating method is its map update followed by one notification. *)
Lemma perform_spec mu w :
  perform run mu w =
  (Normal tt,
   {| externalProviders := mutated mu (externalProviders w);
      providerLoadCallbacks := providerLoadCallbacks w;
      trace := trace w ++
               notification run (mutated mu (externalProviders w)) (providerLoadCallbacks w) |}).
Proof.
  destruct mu; simpl;
    unfold registerProvider, registerProviders, unregisterProvider, clearAll, mbind;
    try rewrite forEach_set; unfold update; now rewrite notifyListeners_spec.
Qed.

(** *** Validation *)

Lemma element_ok_true v :
  element_ok v = Normal true <-> exists t, as_template v = Some t.
Proof.
  unfold element_ok, as_template, JS.get.
  destruct v as [| | b | n | s | elems | props]; simpl;
    try (split; [discriminate | intros [t Ht]; discriminate]).
  destruct (lookup "provider" props) as [[]|]; simpl;
    try (split; [discriminate | intros [t Ht]; discriminate]).
  destruct (lookup "base_url" props) as [[]|]; simpl;
    try (split; [discriminate | intros [t Ht]; discriminate]).
  destruct (lookup "settings" props) as [[]|]; simpl;
    try (split; [discriminate | intros [t Ht]; discriminate]).
  split; [intros _; eexists; reflexivity | reflexivity].
Qed.

Lemma element_ok_throws v :
  (exists e, element_ok v = Throw e) <-> readable v = false.
Proof.
  unfold element_ok, JS.get.
  destruct v as [| | b | n | s | elems | props]; simpl;
    try (split; [intros [e He]; discriminate | discriminate]);
    try (split; [reflexivity | intros _; eexists; reflexivity]).
  destruct (lookup "provider" props) as [[]|]; simpl;
    try (split; [intros [e He]; discriminate | discriminate]).
  destruct (lookup "base_url" props) as [[]|]; simpl;
    try (split; [intros [e He]; discriminate | discriminate]).
  destruct (lookup "settings" props) as [[]|]; simpl;
    split; try discriminate; intros [e He]; discriminate.
Qed.

Lemma element_ok_false v :
  element_ok v = Normal false <-> readable v = true /\ as_template v = None.
Proof.
  pose proof (element_ok_true v) as Ht. pose proof (element_ok_throws v) as Hx.
  destruct (element_ok v) as [[|]|e] eqn:E.
  - destruct (proj1 Ht eq_refl) as [t Hs]. split; [discriminate|].
    intros [_ Hn]. congruence.
  - split; [|reflexivity]. intros _. split.
    + destruct (readable v) eqn:R; [reflexivity|].
      destruct (proj2 Hx eq_refl) as [e He]. discriminate.
    + destruct (as_template v) as [t|] eqn:A; [|reflexivity].
      assert (Normal false = Normal true) by (apply Ht; now exists t). discriminate.
  - split; [discriminate|]. intros [R _].
    rewrite (proj1 Hx (ex_intro _ e eq_refl)) in R. discriminate.
Qed.

(** On a bundle that passed validation the typed view loses nothing. *)
Lemma every_element_ok elems :
  every element_ok elems = Normal true ->
  List.map as_template elems = List.map Some (as_templates elems).
Proof.
  induction elems as [|v rest IH]; simpl; [reflexivity|].
  destruct (element_ok v) as [[|]|e] eqn:E; try discriminate.
  apply element_ok_true in E as [t Ht]. rewrite Ht. simpl.
  intros Hrest. now rewrite IH.
Qed.

Lemma validateProviderConfig_true config :
  validateProviderConfig config = Normal true ->
  exists elems,
    JS.get "providers" config = Normal (VArray elems) /\
    List.map as_template elems = List.map Some (config_providers config).
Proof.
  unfold validateProviderConfig, config_providers.
  destruct (truthy config); simpl; [|discriminate].
  destruct (JS.get "providers" config) as [ps|e]; simpl; [|discriminate].
  destruct ps; try discriminate.
  intros Hall. eexists. split; [reflexivity|]. now apply every_element_ok.
Qed.

(** [loadProvidersFromConfig] is validation, then either the throw or the
    batch registration. *)
Lemma loadProvidersFromConfig_spec config w :
  loadProvidersFromConfig run config w =
  match validateProviderConfig config with
  | Normal true => perform run (RegisterProviders (config_providers config)) w
  | Normal false => (Throw (Error "Invalid provider configuration format"), w)
  | Throw e => (Throw e, w)
  end.
Proof.
  unfold loadProvidersFromConfig, mbind, lift, throw.
  destruct (validateProviderConfig config) as [[|]|e]; reflexivity.
Qed.

Lemma loadProvidersFromUrl_spec url fetched w :
  loadProvidersFromUrl run url fetched w =
  match url_outcome url fetched with
  | inl e =>
      (Throw e, emit (ConsoleError "Error loading providers from URL:" e) (emit (Fetch url) w))
  | inr providers => perform run (RegisterProviders providers) (emit (Fetch url) w)
  end.
Proof.
  unfold loadProvidersFromUrl, url_outcome, try_catch, mbind, lift, throw, update.
  destruct fetched as [r|e]; simpl; [|reflexivity].
  destruct (ok r); simpl; [|reflexivity].
  destruct (json r) as [config|e]; simpl; [|reflexivity].
  destruct (validateProviderConfig config) as [[|]|e]; simpl; try reflexivity.
  change (registerProviders run (config_providers config))
    with (perform run (RegisterProviders (config_providers config))).
  now rewrite perform_spec.
Qed.

(** *** Invariants of the reachable states *)

Lemma keyed_set p m : keyed m -> keyed (JSMap.set (provider p) p m).
Proof.
  unfold keyed. rewrite !Forall_forall. intros Hm kv Hin.
  apply JSMapFacts.In_set in Hin as [->|Hin]; [reflexivity | now apply Hm].
Qed.

Lemma keyed_delete k m : keyed m -> keyed (JSMap.delete k m).
Proof.
  unfold keyed, JSMap.delete. rewrite !Forall_forall. intros Hm kv Hin.
  apply filter_In in Hin as [Hin _]. now apply Hm.
Qed.

Lemma map_ok_mutated mu m : map_ok m -> map_ok (mutated mu m).
Proof.
  intros [Hnd Hk]. destruct mu as [p|ps|k|]; simpl.
  - split; [now apply JSMapFacts.NoDup_keys_set | now apply keyed_set].
  - revert m Hnd Hk. induction ps as [|p ps IH]; intros m Hnd Hk; simpl.
    + now split.
    + apply IH; [now apply JSMapFacts.NoDup_keys_set | now apply keyed_set].
  - split; [now apply JSMapFacts.NoDup_keys_delete | now apply keyed_delete].
  - split; constructor.
Qed.

Lemma wf_perform mu w : wf w -> wf (snd (perform run mu w)).
Proof.
  intros [Hm Hs]. rewrite perform_spec. split; simpl; [now apply map_ok_mutated | exact Hs].
Qed.

Lemma wf_step w w' : step run w w' -> wf w -> wf w'.
Proof.
  intros Hstep Hwf. destruct Hstep as [mu w|config w|url fetched w|c w|u w].
  - now apply wf_perform.
  - rewrite loadProvidersFromConfig_spec.
    destruct (validateProviderConfig config) as [[|]|e];
      [now apply wf_perform | exact Hwf | exact Hwf].
  - rewrite loadProvidersFromUrl_spec.
    destruct (url_outcome url fetched) as [e|ps].
    + exact Hwf.
    + apply wf_perform. exact Hwf.
  - destruct Hwf as [Hm Hs]. split; simpl; [exact Hm | now apply JSSetFacts.NoDup_add].
  - destruct Hwf as [Hm Hs]. split; simpl; [exact Hm | now apply JSSetFacts.NoDup_delete].
Qed.

Lemma reachable_wf w : reachable run w -> wf w.
Proof.
  induction 1 as [|w w' Hr IH Hstep].
  - repeat split; constructor.
  - now apply (wf_step Hstep).
Qed.

Lemma get_fold_set providers : forall m k,
  JSMap.get k (fold_left (fun m p => JSMap.set (provider p) p m) providers m) =
  match last_with_key k providers with
  | Some p => Some p
  | None => JSMap.get k m
  end.
Proof.
  unfold last_with_key.
  induction providers as [|p ps IH] using rev_ind; intros m k; simpl; [reflexivity|].
  rewrite fold_left_app, rev_app_distr. simpl.
  destruct (String.eqb_spec (provider p) k) as [<-|Hne].
  - apply JSMapFacts.get_set_eq.
  - rewrite JSMapFacts.get_set_ne by exact Hne. apply IH.
Qed.

End Facts.
End RegistryFacts.

(* ===================================================================== *)
(** ** The registry: the specified properties *)
(* ===================================================================== *)

Module RegistrySpec.
Import JS Registry RegistryFacts.

Section Properties.
Variable run : JSSet.ref -> JSMap.t ProviderTemplate -> option exn.

(** *** Config loader (section 4.2) *)

Lemma every_false_iff {A} (f : A -> completion bool) xs :
  every f xs = Normal false <->
  exists pre bad post,
    xs = pre ++ bad :: post /\
    Forall (fun x => f x = Normal true) pre /\
    f bad = Normal false.
Proof.
  induction xs as [|x rest IH]; simpl.
  - split; [discriminate|]. intros (pre & bad & post & Heq & _).
    now destruct pre.
  - destruct (f x) as [[|]|e] eqn:E.
    + rewrite IH. split.
      * intros (pre & bad & post & -> & Hpre & Hbad).
        exists (x :: pre), bad, post. repeat split; trivial. now constructor.
      * intros (pre & bad & post & Heq & Hpre & Hbad).
        destruct pre as [|y pre]; simpl in Heq; injection Heq as <- ->.
        -- congruence.
        -- inversion Hpre; subst. now exists pre, bad, post.
    + split; [|reflexivity]. intros _. exists [], x, rest. now repeat split.
    + split; [discriminate|].
      intros (pre & bad & post & Heq & Hpre & Hbad).
      destruct pre as [|y pre]; simpl in Heq; injection Heq as <- ->.
      * congruence.
      * inversion Hpre; subst. congruence.
Qed.

(** What the validator answers [false] on, by shape: a falsy config, a
    [providers] that is no array, or an array whose first element that is not
    a template is still a value one can read members of. *)
Lemma validateProviderConfig_false_iff config :
  validateProviderConfig config = Normal false <->
  truthy config = false \/
  (truthy config = true /\
   exists ps, JS.get "providers" config = Normal ps /\ isArray ps = false) \/
  (truthy config = true /\
   exists pre bad post,
     JS.get "providers" config = Normal (VArray (pre ++ bad :: post)) /\
     Forall (fun v => exists t, as_template v = Some t) pre /\
     readable bad = true /\ as_template bad = None).
Proof.
  unfold validateProviderConfig.
  destruct (truthy config) eqn:T; simpl.
  2:{ split; [now left | reflexivity]. }
  destruct (JS.get "providers" config) as [ps|e] eqn:G; simpl.
  2:{ destruct config; simpl in *; try discriminate.
      destruct (lookup "providers" props); discriminate. }
  split.
  - intros Hv. right.
    destruct ps as [| | b | n | s | elems | props];
      try (left; split; [reflexivity|]; eexists; split; [reflexivity | reflexivity]).
    right. split; [reflexivity|].
    apply every_false_iff in Hv as (pre & bad & post & -> & Hpre & Hbad).
    exists pre, bad, post. apply element_ok_false in Hbad as [Hr Hn].
    repeat split; trivial.
    eapply Forall_impl; [|exact Hpre]. intros v. apply element_ok_true.
  - intros [Hf | [[_ (ps' & [= <-] & Hna)] | [_ (pre & bad & post & [= ->] & Hpre & Hr & Hn)]]].
    + discriminate.
    + destruct ps; try reflexivity; discriminate.
    + apply every_false_iff. exists pre, bad, post. repeat split.
      * eapply Forall_impl; [|exact Hpre]. intros v. apply element_ok_true.
      * now apply element_ok_false.
Qed.

(** Whenever the validator answers false (by [validateProviderConfig_false_iff]:
    the config is falsy, or [providers] is no array, or the first element
    that is no template is still a value one can read members of), the call
    throws an error whose message is exactly "Invalid provider configuration
    format", and the registry is as it was: nothing of the bundle is
    registered (not even the elements that are well formed), and nobody is
    notified. *)
Lemma loadProvidersFromConfig_all_or_nothing (config : value) (w : world) :
  validateProviderConfig config = Normal false ->
  loadProvidersFromConfig run config w =
  (Throw (Error "Invalid provider configuration format"), w).
Proof.
  intros Hrej. rewrite loadProvidersFromConfig_spec. now rewrite Hrej.
Qed.

(** Whatever makes [loadProvidersFromConfig] throw, it throws before it
    touches the registry. *)
Lemma loadProvidersFromConfig_throws_unchanged config w e w' :
  loadProvidersFromConfig run config w = (Throw e, w') -> w' = w.
Proof.
  rewrite loadProvidersFromConfig_spec.
  destruct (validateProviderConfig config) as [[|]|e0].
  - rewrite perform_spec. discriminate.
  - now intros [= _ <-].
  - now intros [= _ <-].
Qed.

(** An element that is null or undefined, when the validator gets to it,
    makes the property read throw: the caller sees that TypeError, not the
    validation error.  The registry is still untouched. *)
Lemma loadProvidersFromConfig_unreadable_element config pre bad post w :
  truthy config = true ->
  JS.get "providers" config = Normal (VArray (pre ++ bad :: post)) ->
  Forall (fun v => exists t, as_template v = Some t) pre ->
  readable bad = false ->
  exists msg, loadProvidersFromConfig run config w = (Throw (TypeError msg), w).
Proof.
  intros T G Hpre Hbad. rewrite loadProvidersFromConfig_spec.
  unfold validateProviderConfig. rewrite T, G. simpl.
  assert (Hev : exists msg, every element_ok (pre ++ bad :: post) = Throw (TypeError msg)).
  { clear G. induction Hpre as [|v pre [t Ht] _ IH]; simpl.
    - destruct bad; try discriminate; simpl; eexists; reflexivity.
    - assert (Hok : element_ok v = Normal true) by (apply element_ok_true; now exists t).
      rewrite Hok. exact IH. }
  destruct Hev as [msg ->]. now exists msg.
Qed.

(** *** Registration (section 4.1) *)

(** C2. Registering t1 and then t2 under the same [provider] leaves one
    entry under that key: both calls return, [getProvider] of the key gives
    t2, the second call does not change how many providers are registered,
    and from a registry with no provider [getRegisteredProviders()] is
    exactly [t2], of length 1. *)
Theorem registerProvider_twice_replaces (t1 t2 : ProviderTemplate) (w : world) :
  provider t1 = provider t2 ->
  exists w1 w2,
    registerProvider run t1 w = (Normal tt, w1) /\
    registerProvider run t2 w1 = (Normal tt, w2) /\
    getProvider (provider t1) w2 = Some t2 /\
    length (getRegisteredProviders w2) = length (getRegisteredProviders w1) /\
    (externalProviders w = JSMap.empty ->
     getRegisteredProviders w2 = [t2] /\ length (getRegisteredProviders w2) = 1).
Proof.
  intros Hkey.
  pose proof (perform_spec run (RegisterProvider t1) w) as H1. simpl in H1.
  eexists. eexists. split; [exact H1|].
  split; [apply (perform_spec run (RegisterProvider t2))|].
  unfold getProvider, getRegisteredProviders, JSMap.values. simpl.
  rewrite <- Hkey. split; [apply JSMapFacts.get_set_eq|]. split.
  - rewrite !length_map, JSMapFacts.length_set, JSMapFacts.has_set. reflexivity.
  - intros Hempty. rewrite Hempty. simpl. rewrite String.eqb_refl. now split.
Qed.

(** C3. One call of [registerProviders] returns, inserts or replaces every
    element in order (so a key ends at the last template given for it, and
    keeps its entry when none is given), and calls each subscribed listener
    exactly once for the whole batch, after all the insertions. *)
Theorem registerProviders_notifies_once (providers : list ProviderTemplate) (w : world) :
  reachable run w ->
  exists w' evs,
    registerProviders run providers w = (Normal tt, w') /\
    externalProviders w' =
      fold_left (fun m p => JSMap.set (provider p) p m) providers (externalProviders w) /\
    (forall k, getProvider k w' =
               match last_with_key k providers with
               | Some p => Some p
               | None => getProvider k w
               end) /\
    providerLoadCallbacks w' = providerLoadCallbacks w /\
    trace w' = trace w ++ evs /\
    (forall c, count_calls c evs = if JSSet.mem c (providerLoadCallbacks w) then 1 else 0) /\
    Forall (fun m => m = externalProviders w') (seen_by_calls evs).
Proof.
  intros Hr. destruct (reachable_wf Hr) as [_ Hnd].
  eexists. eexists. split; [apply (perform_spec run (RegisterProviders providers))|].
  simpl. repeat split.
  - intros k. unfold getProvider. simpl. apply get_fold_set.
  - intros c. now apply count_calls_notification.
  - rewrite seen_by_calls_notification. apply Forall_forall.
    intros m Hin. apply in_map_iff in Hin as [c [<- _]]. reflexivity.
Qed.

(** C5. Whatever the mutation and whoever is subscribed, the call returns
    (no exception reaches the caller) and the batch calls every subscribed
    listener, in subscription order, also those after a listener that threw;
    what a listener threw is reported on the console. *)
Theorem listener_faults_are_isolated (mu : mutation) (w : world) :
  exists w' evs,
    perform run mu w = (Normal tt, w') /\
    trace w' = trace w ++ evs /\
    called evs = providerLoadCallbacks w /\
    (forall c e, In c (providerLoadCallbacks w) ->
                 run c (externalProviders w') = Some e ->
                 In (ConsoleError "Error in provider change callback:" e) evs).
Proof.
  eexists. eexists. split; [apply perform_spec|]. simpl. repeat split.
  - apply called_notification.
  - intros c e Hin Hrun. now apply thrown_is_logged with (c := c).
Qed.

(** C6. [unregisterProvider(id)] returns, removes the entry of [id] when
    there is one, changes nothing of the provider map when there is none,
    leaves every other key alone, and in both cases calls each subscribed
    listener exactly once. *)
Theorem unregisterProvider_always_notifies (id : string) (w : world) :
  reachable run w ->
  exists w' evs,
    unregisterProvider run id w = (Normal tt, w') /\
    getProvider id w' = None /\
    hasProvider id w' = false /\
    (forall k, k <> id -> getProvider k w' = getProvider k w) /\
    (hasProvider id w = false -> externalProviders w' = externalProviders w) /\
    providerLoadCallbacks w' = providerLoadCallbacks w /\
    trace w' = trace w ++ evs /\
    (forall c, count_calls c evs = if JSSet.mem c (providerLoadCallbacks w) then 1 else 0).
Proof.
  intros Hr. destruct (reachable_wf Hr) as [_ Hnd].
  eexists. eexists. split; [apply (perform_spec run (UnregisterProvider id))|].
  unfold getProvider, hasProvider. simpl. repeat split.
  - apply JSMapFacts.get_delete_eq.
  - rewrite JSMapFacts.has_get, JSMapFacts.get_delete_eq. reflexivity.
  - intros k Hne. apply JSMapFacts.get_delete_ne. congruence.
  - intros Hhas. apply JSMapFacts.delete_absent.
    rewrite JSMapFacts.has_get in Hhas. now destruct (JSMap.get id (externalProviders w)).
  - intros c. now apply count_calls_notification.
Qed.

(** *** Subscriptions (section 4.1, section 4.3) *)

Lemma onProvidersChanged_spec c w :
  onProvidersChanged c w = (Normal {| captured := c |}, with_callbacks (JSSet.add c) w).
Proof. reflexivity. Qed.

(** C4, as the code has it.  The listeners are a set of function
    references.  Subscribing a function makes it a member; subscribing it a
    second time adds nothing: the set is the same, the function is in it once,
    and a mutation calls it exactly once.  Both calls return a handle on that
    one subscription, and calling either handle once removes it, so the next
    mutation does not call the function; the other subscribers stay as they
    were. *)
Theorem duplicate_subscription_is_one (c : JSSet.ref) (mu : mutation) (w : world) :
  reachable run w ->
  exists u1 u2 w1 w2 during,
    onProvidersChanged c w = (Normal u1, w1) /\
    onProvidersChanged c w1 = (Normal u2, w2) /\
    JSSet.mem c (providerLoadCallbacks w1) = true /\
    providerLoadCallbacks w2 = providerLoadCallbacks w1 /\
    JSSet.mem c (providerLoadCallbacks w2) = true /\
    count_occ Nat.eq_dec (providerLoadCallbacks w2) c = 1 /\
    trace (snd (perform run mu w2)) = trace w2 ++ during /\
    count_calls c during = 1 /\
    forall u, In u [u1; u2] ->
      exists w3 w4 evs,
        call_unsubscribe u w2 = (Normal tt, w3) /\
        JSSet.mem c (providerLoadCallbacks w3) = false /\
        (forall d, d <> c ->
           JSSet.mem d (providerLoadCallbacks w3) = JSSet.mem d (providerLoadCallbacks w)) /\
        perform run mu w3 = (Normal tt, w4) /\
        trace w4 = trace w3 ++ evs /\
        count_calls c evs = 0.
Proof.
  intros Hr. destruct (reachable_wf Hr) as [_ Hnd].
  pose proof (JSSetFacts.NoDup_add c Hnd) as Hnd1.
  assert (Hmem : JSSet.mem c (JSSet.add c (providerLoadCallbacks w)) = true).
  { now rewrite JSSetFacts.mem_add, Nat.eqb_refl. }
  assert (Hsame : JSSet.add c (JSSet.add c (providerLoadCallbacks w)) =
                  JSSet.add c (providerLoadCallbacks w)) by apply JSSetFacts.add_add.
  do 5 eexists. split; [apply onProvidersChanged_spec|].
  split; [apply onProvidersChanged_spec|].
  rewrite perform_spec. simpl. rewrite Hsame.
  split; [exact Hmem|]. split; [reflexivity|]. split; [exact Hmem|]. split.
  { apply NoDup_count_occ'; [exact Hnd1 | now apply JSSetFacts.mem_In]. }
  split; [reflexivity|]. split.
  { rewrite count_calls_notification by exact Hnd1. now rewrite Hmem. }
  intros u Hu. assert (Hc : captured u = c).
  { destruct Hu as [<-|[<-|[]]]; reflexivity. }
  do 3 eexists. split; [reflexivity|]. simpl. rewrite Hc, Hsame.
  split; [apply JSSetFacts.mem_delete_eq|]. split.
  - intros d Hd. rewrite JSSetFacts.mem_delete_ne by exact Hd.
    rewrite JSSetFacts.mem_add.
    destruct (Nat.eqb_spec c d) as [->|_]; [contradiction | reflexivity].
  - split; [apply perform_spec|]. simpl. split; [reflexivity|].
    unfold count_calls. rewrite called_notification.
    apply count_occ_not_In. rewrite JSSetFacts.In_delete. tauto.
Qed.

(** *** The key invariant *)

(** C10. In every state the registry can reach through its methods
    ([registerProvider], [registerProviders], [loadProvidersFromConfig],
    [loadProvidersFromUrl], [unregisterProvider], [clearAll], subscribing and
    unsubscribing), an entry is filed under its own template's [provider]:
    if [getProvider(n)] returns t then [t.provider] is n; and
    [hasProvider(n)] is true exactly when [getProvider(n)] returns a
    template. *)
Theorem entries_keyed_by_provider (w : world) :
  reachable run w ->
  forall n,
    (forall t, getProvider n w = Some t -> provider t = n) /\
    (hasProvider n w = true <-> exists t, getProvider n w = Some t).
Proof.
  intros Hr n. destruct (reachable_wf Hr) as [[_ Hk] _]. split.
  - intros t Hget. apply JSMapFacts.get_In in Hget.
    unfold keyed in Hk. rewrite Forall_forall in Hk. exact (Hk _ Hget).
  - apply JSMapFacts.has_true_iff.
Qed.

End Properties.
End RegistrySpec.

Module RegistryChecks.
Import JS Registry RegistryFacts RegistrySpec Examples.

(** The repository's tests, run on the model. *)

Example test_register_then_get :
  getProvider "test-provider" (snd (registerProvider quiet test_provider instance))
  = Some test_provider.
Proof. reflexivity. Qed.

Example test_register_many_notifies_once :
  called (trace (snd (registerProviders quiet [provider1; provider2]
                        (snd (onProvidersChanged 5 instance))))) = [5].
Proof. reflexivity. Qed.

Example test_unregister :
  hasProvider "test-provider" (snd (registerProvider quiet test_provider instance)) = true /\
  hasProvider "test-provider"
    (snd (unregisterProvider quiet "test-provider"
            (snd (registerProvider quiet test_provider instance)))) = false.
Proof. split; reflexivity. Qed.

Example test_missing_providers :
  loadProvidersFromConfig quiet (VObject [("version", VString "1.0")]) instance
  = (Throw (Error "Invalid provider configuration format"), instance).
Proof. reflexivity. Qed.

Example test_fetch_not_found :
  let r := {| ok := false; statusText := "Not Found"; json := Throw (Error "unused") |} in
  loadProvidersFromUrl quiet "https://example.com/providers.json" (Normal r) instance
  = (Throw (Error "Failed to fetch providers from https://example.com/providers.json: Not Found"),
     {| externalProviders := [];
        providerLoadCallbacks := [];
        trace := [Fetch "https://example.com/providers.json";
                  ConsoleError "Error loading providers from URL:"
                    (Error "Failed to fetch providers from https://example.com/providers.json: Not Found")] |}).
Proof. reflexivity. Qed.

Example test_unsubscribe :
  let w1 := snd (onProvidersChanged 1 instance) in
  let w2 := snd (onProvidersChanged 2 w1) in
  let w3 := snd (call_unsubscribe {| captured := 1 |} w2) in
  called (trace (snd (registerProvider quiet test_provider w3))) = [2].
Proof. reflexivity. Qed.

Example test_throwing_listener :
  trace w_ex =
  [ Called 1 [("test-provider", test_provider)];
    ConsoleError "Error in provider change callback:" (Error "Callback error");
    Called 2 [("test-provider", test_provider)] ].
Proof. reflexivity. Qed.

Lemma w_ex_reachable : reachable run_ex w_ex.
Proof.
  unfold w_ex.
  apply reachable_step with (w := snd (onProvidersChanged 2 (snd (onProvidersChanged 1 instance)))).
  - apply reachable_step with (w := snd (onProvidersChanged 1 instance)).
    + apply reachable_step with (w := instance).
      * apply reachable_instance.
      * apply step_onProvidersChanged.
    + apply step_onProvidersChanged.
  - apply step_perform.
Defined.

(** The test "one valid and one invalid entry": the load fails with the
    validation message and the registry stays empty. *)
Lemma loadProvidersFromConfig_all_or_nothing_witness :
  validateProviderConfig half_valid_config = Normal false /\
  loadProvidersFromConfig run_ex half_valid_config w_ex =
  (Throw (Error "Invalid provider configuration format"), w_ex).
Proof.
  split; [reflexivity|].
  apply (loadProvidersFromConfig_all_or_nothing run_ex half_valid_config w_ex).
  reflexivity.
Defined.

Lemma registerProvider_twice_replaces_witness :
  provider test_provider = provider test_provider' /\
  exists w1 w2,
    registerProvider quiet test_provider instance = (Normal tt, w1) /\
    registerProvider quiet test_provider' w1 = (Normal tt, w2) /\
    getProvider "test-provider" w2 = Some test_provider' /\
    length (getRegisteredProviders w2) = 1.
Proof.
  split; [reflexivity|].
  destruct (registerProvider_twice_replaces quiet test_provider test_provider' instance eq_refl)
    as (w1 & w2 & H1 & H2 & Hget & _ & Hempty).
  exists w1, w2.
  split; [exact H1|]. split; [exact H2|]. split; [exact Hget|]. now apply Hempty.
Defined.

Lemma registerProviders_notifies_once_witness :
  reachable run_ex w_ex /\
  exists w' evs,
    registerProviders run_ex [provider1; provider2] w_ex = (Normal tt, w') /\
    trace w' = trace w_ex ++ evs /\
    count_calls 1 evs = 1 /\ count_calls 2 evs = 1 /\ count_calls 3 evs = 0.
Proof.
  split; [exact w_ex_reachable|].
  destruct (registerProviders_notifies_once [provider1; provider2] w_ex_reachable)
    as (w' & evs & H1 & _ & _ & _ & Htr & Hcount & _).
  exists w', evs.
  split; [exact H1|]. split; [exact Htr|]. repeat split; apply Hcount.
Defined.

Lemma unregisterProvider_always_notifies_witness :
  reachable run_ex w_ex /\
  exists w' evs,
    unregisterProvider run_ex "non-existent" w_ex = (Normal tt, w') /\
    externalProviders w' = externalProviders w_ex /\
    trace w' = trace w_ex ++ evs /\
    count_calls 1 evs = 1 /\ count_calls 2 evs = 1.
Proof.
  split; [exact w_ex_reachable|].
  destruct (unregisterProvider_always_notifies "non-existent" w_ex_reachable)
    as (w' & evs & H1 & _ & _ & _ & Hsame & _ & Htr & Hcount).
  exists w', evs.
  split; [exact H1|]. split; [apply Hsame; reflexivity|]. split; [exact Htr|].
  split; apply Hcount.
Defined.

Lemma entries_keyed_by_provider_witness :
  reachable run_ex w_ex /\
  ((forall t, getProvider "test-provider" w_ex = Some t -> provider t = "test-provider") /\
   (hasProvider "test-provider" w_ex = true <->
    exists t, getProvider "test-provider" w_ex = Some t)).
Proof.
  split; [exact w_ex_reachable|].
  exact (entries_keyed_by_provider w_ex_reachable "test-provider").
Defined.

(** A bundle whose only element is null: the caller gets the engine's
    TypeError, and the registry is as before. *)
Lemma loadProvidersFromConfig_unreadable_element_witness :
  truthy null_element_config = true /\
  JS.get "providers" null_element_config = Normal (VArray ([] ++ VNull :: [])) /\
  readable VNull = false /\
  exists msg,
    loadProvidersFromConfig run_ex null_element_config w_ex = (Throw (TypeError msg), w_ex).
Proof.
  split; [reflexivity|]. split; [reflexivity|]. split; [reflexivity|].
  apply (@loadProvidersFromConfig_unreadable_element run_ex null_element_config
           [] VNull [] w_ex); try reflexivity.
  constructor.
Defined.

(** C1 at a bundle whose only element is null.  The element lacks a string
    [provider], so the claim has the load fail with "Invalid provider
    configuration format"; the validator reads [provider.provider] on it
    instead, and the caller gets the engine's TypeError, from
    [loadProvidersFromConfig] and from [loadProvidersFromUrl] when a server
    answers with that bundle.  The neighbouring cases do get the validation
    error: a config that is null, and an element that is an object without
    [base_url].  The registry is unchanged in all of them. *)
Theorem loadProvidersFromConfig_null_element :
  as_template VNull = None /\
  loadProvidersFromConfig run_ex null_element_config w_ex =
    (Throw (TypeError "Cannot read properties of null (reading 'provider')"), w_ex) /\
  fst (loadProvidersFromUrl run_ex "https://example.com/providers.json"
         (Normal {| ok := true; statusText := "OK"; json := Normal null_element_config |})
         w_ex) =
    Throw (TypeError "Cannot read properties of null (reading 'provider')") /\
  externalProviders
    (snd (loadProvidersFromUrl run_ex "https://example.com/providers.json"
            (Normal {| ok := true; statusText := "OK"; json := Normal null_element_config |})
            w_ex)) = externalProviders w_ex /\
  loadProvidersFromConfig run_ex VNull w_ex =
    (Throw (Error "Invalid provider configuration format"), w_ex) /\
  loadProvidersFromConfig run_ex half_valid_config w_ex =
    (Throw (Error "Invalid provider configuration format"), w_ex).
Proof. repeat split. Qed.

(** At listener 7 on the registry of [w_ex]: subscribed twice it is in the
    set once and a registration calls it once; after the first handle is
    called a registration does not call it. *)
Lemma duplicate_subscription_is_one_witness :
  reachable run_ex w_ex /\
  exists u1 u2 w1 w2 during w3 w4 evs,
    onProvidersChanged 7 w_ex = (Normal u1, w1) /\
    onProvidersChanged 7 w1 = (Normal u2, w2) /\
    count_occ Nat.eq_dec (providerLoadCallbacks w2) 7 = 1 /\
    trace (snd (perform run_ex (RegisterProvider provider1) w2)) = trace w2 ++ during /\
    count_calls 7 during = 1 /\
    call_unsubscribe u1 w2 = (Normal tt, w3) /\
    perform run_ex (RegisterProvider provider1) w3 = (Normal tt, w4) /\
    trace w4 = trace w3 ++ evs /\
    count_calls 7 evs = 0.
Proof.
  split; [exact w_ex_reachable|].
  destruct (duplicate_subscription_is_one 7 (RegisterProvider provider1) w_ex_reachable)
    as (u1 & u2 & w1 & w2 & during & H1 & H2 & _ & _ & _ & Hocc & Htr & Hcount & Hun).
  destruct (Hun u1 (or_introl eq_refl)) as (w3 & w4 & evs & H3 & _ & _ & H4 & Htr' & Hcount').
  exists u1, u2, w1, w2, during, w3, w4, evs.
  repeat (split; [assumption|]). assumption.
Defined.

(** C4 as stated fails: the function subscribed twice is not called any
    more after one unsubscribe, whichever of the two handles is used. *)
Lemma independent_subscriptions_counterexample :
  exists u1 u2 w1 w2 w3 w3' w4 w4',
    onProvidersChanged 7 instance = (Normal u1, w1) /\
    onProvidersChanged 7 w1 = (Normal u2, w2) /\
    call_unsubscribe u1 w2 = (Normal tt, w3) /\
    call_unsubscribe u2 w2 = (Normal tt, w3') /\
    registerProvider quiet test_provider w3 = (Normal tt, w4) /\
    registerProvider quiet test_provider w3' = (Normal tt, w4') /\
    providerLoadCallbacks w2 = [7] /\
    providerLoadCallbacks w3 = [] /\ providerLoadCallbacks w3' = [] /\
    count_calls 7 (trace w4) = 0 /\ count_calls 7 (trace w4') = 0.
Proof.
  do 8 eexists. repeat split.
Qed.

End RegistryChecks.

(* ===================================================================== *)
(** ** The wrappers: the specified properties *)
(* ===================================================================== *)

Module ServicesSpec.
Import JS Services ServicesTactics.

Section Properties.
Context {number : Type} `{JSNumber number}.
Variable browser : platform.

Lemma In_append_if {A} (o : option A) test key text (p : pairs) kv :
  In kv (append_if o test key text p) <->
  In kv p \/ exists a, o = Some a /\ test a = true /\ kv = (key, text a).
Proof.
  unfold append_if, append. destruct o as [a|].
  - destruct (test a) eqn:T.
    + rewrite in_app_iff. simpl. split.
      * intros [Hin|[<-|[]]]; [now left | right; now exists a].
      * intros [Hin|(a' & [= <-] & _ & ->)]; [now left | right; now left].
    + split; [now left|]. intros [Hin|(a' & [= <-] & T' & _)]; [exact Hin | congruence].
  - split; [now left|]. intros [Hin|(a' & Habs & _)]; [exact Hin | discriminate].
Qed.

Lemma imageParams_member (options : ImageGenerationOptions number) f v :
  In (image_field_name f, v) (imageParams options) <->
  exists x, image_member options f = Some x /\ member_truthy x = true /\ v = member_text x.
Proof.
  unfold imageParams. rewrite !In_append_if. simpl. split.
  - intros Hin.
    destruct f; simpl in Hin; break_appended; close_member.
  - intros (x & Hx & Ht & ->).
    destruct f; simpl in Hx;
      match type of Hx with
      | option_map _ (?proj options) = _ =>
          destruct (proj options) as [a|] eqn:Ho; [|discriminate];
          injection Hx as <-; simpl in Ht |- *
      end;
      try (rewrite Ht); pick_disjunct.
Qed.

Lemma videoParams_member (options : VideoGenerationOptions number) f v :
  In (video_field_name f, v) (videoParams options) <->
  exists x, video_member options f = Some x /\ member_truthy x = true /\ v = member_text x.
Proof.
  unfold videoParams. rewrite !In_append_if. simpl. split.
  - intros Hin.
    destruct f; simpl in Hin; break_appended; close_member.
  - intros (x & Hx & Ht & ->).
    destruct f; simpl in Hx;
      match type of Hx with
      | option_map _ (?proj options) = _ =>
          destruct (proj options) as [a|] eqn:Ho; [|discriminate];
          injection Hx as <-; simpl in Ht |- *
      end;
      try (rewrite Ht); pick_disjunct.
Qed.

Lemma uploadForm_member this image (options : ImgBBUploadOptions number) f v :
  In (upload_field_name f, v) (uploadForm this image options) <->
  exists x, upload_member options f = Some x /\ member_truthy x = true /\ v = member_text x.
Proof.
  unfold uploadForm, append. rewrite !In_append_if. simpl. split.
  - intros Hin.
    destruct f; simpl in Hin; break_appended; close_member.
  - intros (x & Hx & Ht & ->).
    destruct f; simpl in Hx;
      match type of Hx with
      | option_map _ (?proj options) = _ =>
          destruct (proj options) as [a|] eqn:Ho; [|discriminate];
          injection Hx as <-; simpl in Ht |- *
      end;
      pick_disjunct.
Qed.

(** [generateImage] issues one request, whose query string is the
    serialization of [imageParams]; none when the prompt cannot be encoded. *)
Lemma generateImage_requests this prompt (options : ImageGenerationOptions number) :
  requests (snd (generateImage browser this prompt options)) =
  match encodeURIComponent browser prompt with
  | Normal encoded =>
      [ {| url := (pollinations_baseUrl this ++ "/image/" ++ encoded
                   ++ "?" ++ params_toString browser (imageParams options))%string;
           method := "GET";
           headers := authorization (pollinations_apiKey this);
           body := None |} ]
  | Throw _ => []
  end.
Proof.
  unfold generateImage.
  destruct (encodeURIComponent browser prompt) as [encoded|e]; [|reflexivity].
  match goal with |- context [JS.bind ?c ?k] => destruct (JS.bind c k) end; reflexivity.
Qed.

Lemma generateVideo_requests this prompt (options : VideoGenerationOptions number) :
  requests (snd (generateVideo browser this prompt options)) =
  match encodeURIComponent browser prompt with
  | Normal encoded =>
      [ {| url := (pollinations_baseUrl this ++ "/image/" ++ encoded
                   ++ "?" ++ params_toString browser (videoParams options))%string;
           method := "GET";
           headers := authorization (pollinations_apiKey this);
           body := None |} ]
  | Throw _ => []
  end.
Proof.
  unfold generateVideo.
  destruct (encodeURIComponent browser prompt) as [encoded|e]; [|reflexivity].
  match goal with |- context [JS.bind ?c ?k] => destruct (JS.bind c k) end; reflexivity.
Qed.

Lemma post_upload_requests this formData :
  requests (snd (post_upload browser this formData)) =
  [ {| url := apiKey this; method := "POST"; headers := []; body := Some formData |} ].
Proof.
  unfold post_upload.
  match goal with |- context [JS.bind ?c ?k] => destruct (JS.bind c k) end; reflexivity.
Qed.

(** The requests of [uploadFile] on a configured service: one POST carrying
    the form, unless the file could not be read. *)
Lemma uploadFile_requests this file (options : ImgBBUploadOptions number) :
  isConfigured this = true ->
  requests (snd (uploadFile browser this file options)) =
  match file with
  | inr base64 =>
      [ {| url := apiKey this; method := "POST"; headers := [];
           body := Some (uploadForm this base64 options) |} ]
  | inl f =>
      match fileToBase64 browser f with
      | Normal base64 =>
          [ {| url := apiKey this; method := "POST"; headers := [];
               body := Some (uploadForm this (form_text base64) options) |} ]
      | Throw _ => []
      end
  end.
Proof.
  unfold isConfigured, uploadFile. intros ->. simpl.
  destruct file as [f|base64].
  - destruct (fileToBase64 browser f) as [base64|e]; [|reflexivity].
    pose proof (post_upload_requests this (uploadForm this (form_text base64) options)) as Hp.
    destruct (post_upload browser this (uploadForm this (form_text base64) options)) as [r evs].
    exact Hp.
  - apply post_upload_requests.
Qed.

(** From "sent exactly when present and truthy" to [serializes]. *)
Lemma serializes_intro {F : Type} (name_of : F -> string) (field : F -> option member)
  (sent : pairs) :
  (forall f v, In (name_of f, v) sent <->
               exists x, field f = Some x /\ member_truthy x = true /\ v = member_text x) ->
  serializes name_of field sent.
Proof.
  intros Hiff. repeat split.
  - intros f v Hin. apply Hiff in Hin as (x & Hx & _ & Hv). now exists x.
  - intros f x Hx Ht. apply Hiff. now exists x.
  - intros f x Hx Hun v Hin. apply Hiff in Hin as (y & Hy & Ht & _).
    rewrite Hx in Hy. injection Hy as <-.
    destruct Hun as [-> | ->]; discriminate.
Qed.

(** C7, as the code has it.  In the calls that take a prompt or a file
    ([generateImage], [generateVideo], [uploadFile]) every absent optional
    member is omitted from the request; a present member whose value is
    truthy is serialized under its parameter name with the text of its value
    (a flag as "true"); a flag that is present but false, and a string that
    is present but empty, are omitted: for these, truthiness and not presence
    decides.  The parameters are the query string of the one GET that
    [generateImage] or [generateVideo] issues (a prompt that
    [encodeURIComponent] cannot encode ends the call before any request);
    the upload form is the body of the POST that [uploadFile] issues. *)
Theorem truthy_members_are_serialized
  (pollinations : PollinationsService) (prompt : string)
  (options : ImageGenerationOptions number)
  (video_options : VideoGenerationOptions number)
  (imgbb : ImgBBService) (image : string) (upload_options : ImgBBUploadOptions number) :
  (List.map url (requests (snd (generateImage browser pollinations prompt options))) =
     match encodeURIComponent browser prompt with
     | Normal encoded =>
         [ (pollinations_baseUrl pollinations ++ "/image/" ++ encoded
            ++ "?" ++ params_toString browser (imageParams options))%string ]
     | Throw _ => []
     end /\
   serializes image_field_name (image_member options) (imageParams options)) /\
  (List.map url (requests (snd (generateVideo browser pollinations prompt video_options))) =
     match encodeURIComponent browser prompt with
     | Normal encoded =>
         [ (pollinations_baseUrl pollinations ++ "/image/" ++ encoded
            ++ "?" ++ params_toString browser (videoParams video_options))%string ]
     | Throw _ => []
     end /\
   serializes video_field_name (video_member video_options) (videoParams video_options)) /\
  ((isConfigured imgbb = true ->
    List.map body (requests (snd (uploadFile browser imgbb (inr image) upload_options))) =
      [ Some (uploadForm imgbb image upload_options) ]) /\
   serializes upload_field_name (upload_member upload_options)
     (uploadForm imgbb image upload_options)).
Proof.
  split; [split|].
  { rewrite generateImage_requests. now destruct (encodeURIComponent browser prompt). }
  { apply serializes_intro. intros f v. apply imageParams_member. }
  split; [split|].
  { rewrite generateVideo_requests. now destruct (encodeURIComponent browser prompt). }
  { apply serializes_intro. intros f v. apply videoParams_member. }
  split.
  - intros Hc. now rewrite (uploadFile_requests _ _ _ Hc).
  - apply serializes_intro. intros f v. apply uploadForm_member.
Qed.

(** C9. On a service that holds no credential, [uploadFile] rejects with
    the configuration error and has done nothing before: no request, no file
    read, no console output. *)
Theorem uploadFile_unconfigured_fails_first
  (this : ImgBBService) (file : File + string) (options : ImgBBUploadOptions number) :
  isConfigured this = false ->
  uploadFile browser this file options =
  (Throw (Error "ImgBB API key is not configured"), []).
Proof.
  unfold isConfigured, uploadFile. intros ->. reflexivity.
Qed.

(** Every request of [uploadFile] goes to the string held as API key. *)
Lemma uploadFile_fetches_apiKey this file (options : ImgBBUploadOptions number) :
  Forall (fun r => url r = apiKey this /\ method r = "POST")
         (requests (snd (uploadFile browser this file options))).
Proof.
  destruct (isConfigured this) eqn:C.
  - rewrite (uploadFile_requests _ _ _ C).
    destruct file as [f|base64]; [destruct (fileToBase64 browser f)|];
      repeat constructor.
  - unfold isConfigured in C. unfold uploadFile. rewrite C. constructor.
Qed.

End Properties.
End ServicesSpec.

Module ServicesChecks.
Import JS Services ServicesSpec Examples.

Lemma uploadFile_unconfigured_fails_first_witness :
  isConfigured unconfigured = false /\
  uploadFile accepting unconfigured (inr "aGVsbG8=") no_upload_options =
  (Throw (Error "ImgBB API key is not configured"), []).
Proof.
  split; [reflexivity|].
  apply (uploadFile_unconfigured_fails_first accepting unconfigured (inr "aGVsbG8=")
           no_upload_options).
  reflexivity.
Defined.

(** C7 as stated fails: with enhance false and an empty negative_prompt
    present, no image parameter is sent; with audio false and an empty
    referenceImage present, no video parameter is sent; with an empty name
    present, the form holds the key and the image only. *)
Lemma presence_counterexample :
  (image_member falsy_image_options F_enhance = Some (MBool false) /\
   image_member falsy_image_options F_negative_prompt = Some (MString "") /\
   imageParams falsy_image_options = []) /\
  (video_member falsy_video_options V_audio = Some (MBool false) /\
   video_member falsy_video_options V_referenceImage = Some (MString "") /\
   videoParams falsy_video_options = []) /\
  (upload_member falsy_upload_options U_name = Some (MString "") /\
   uploadForm configured "aGVsbG8=" falsy_upload_options =
     [("key", "abc123"); ("image", "aGVsbG8=")]).
Proof. repeat split. Qed.

(** C8 at a concrete call: the configured service posts the form to
    "abc123", its API key, while the upload URL it holds is another string. *)
Lemma uploadFile_posts_to_the_key :
  requests (snd (uploadFile accepting configured (inr "aGVsbG8=") no_upload_options)) =
    [ {| url := "abc123"; method := "POST"; headers := [];
         body := Some [("key", "abc123"); ("image", "aGVsbG8=")] |} ] /\
  baseUrl configured = "https://api.imgbb.com/1/upload" /\
  String.eqb (baseUrl configured) "abc123" = false.
Proof. repeat split. Qed.

End ServicesChecks.

(* ===================================================================== *)
(** ** The registry: further properties of its methods *)
(* ===================================================================== *)

Module JSMapMore.
Import JSMap.

Section Facts.
Variable V : Type.
Implicit Types (m : JSMap.t V) (k : string) (v : V).

Lemma delete_set_fresh k v m : get k m = None -> delete k (set k v m) = m.
Proof.
  unfold delete. induction m as [|[k' v'] rest IH]; simpl.
  - now rewrite String.eqb_refl.
  - destruct (k' =? k) eqn:E; [discriminate|].
    intros Hg. simpl. rewrite E. simpl. now rewrite IH.
Qed.

Lemma length_values m : length (values m) = length (keys m).
Proof. unfold values, keys. now rewrite !length_map. Qed.

Lemma get_None_not_In k m : get k m = None -> ~ In k (keys m).
Proof.
  intros Hg. apply JSMapFacts.has_false_not_In.
  rewrite JSMapFacts.has_get. now rewrite Hg.
Qed.

Lemma In_keys_get k m : In k (keys m) -> exists v, get k m = Some v.
Proof.
  unfold keys. induction m as [|[k' v'] rest IH]; simpl; [tauto|].
  destruct (String.eqb_spec k' k) as [->|Hne].
  - intros _. now exists v'.
  - intros [Heq|Hin]; [contradiction | now apply IH].
Qed.

End Facts.
End JSMapMore.

Module RegistryMore.
Import JS Registry RegistryFacts.

Section Properties.
Variable run : JSSet.ref -> JSMap.t ProviderTemplate -> option exn.

Lemma keyed_values m :
  keyed m -> List.map provider (JSMap.values m) = JSMap.keys m.
Proof.
  unfold keyed, JSMap.values, JSMap.keys. induction 1 as [|[k t] rest Hk _ IH]; simpl.
  - reflexivity.
  - simpl in Hk. now rewrite Hk, IH.
Qed.

(** After [registerProvider(p)] the template is read back as registered,
    under its own [provider]; the call returns; no other key and no
    subscription is affected.  (Insert/lookup round trip.) *)
Theorem registerProvider_then_getProvider (p : ProviderTemplate) (w : world) :
  exists w',
    registerProvider run p w = (Normal tt, w') /\
    getProvider (provider p) w' = Some p /\
    hasProvider (provider p) w' = true /\
    (forall k, k <> provider p ->
       getProvider k w' = getProvider k w /\ hasProvider k w' = hasProvider k w) /\
    providerLoadCallbacks w' = providerLoadCallbacks w.
Proof.
  eexists. split; [apply (perform_spec run (RegisterProvider p))|].
  unfold getProvider, hasProvider. simpl.
  split; [apply JSMapFacts.get_set_eq|].
  split; [apply JSMapFacts.has_set|].
  split; [|reflexivity].
  intros k Hne. assert (Hne' : provider p <> k) by congruence.
  rewrite !JSMapFacts.has_get, (JSMapFacts.get_set_ne _ _ Hne'). now split.
Qed.

(** [getRegisteredProviders()] lists the templates in the order their keys
    were first registered: registering under a key that is there keeps its
    place (and the length), registering under a new key adds it at the end. *)
Theorem registerProvider_keeps_insertion_order (p : ProviderTemplate) (w : world) :
  reachable run w ->
  let w' := snd (registerProvider run p w) in
  List.map provider (getRegisteredProviders w') =
    (if hasProvider (provider p) w
     then List.map provider (getRegisteredProviders w)
     else List.map provider (getRegisteredProviders w) ++ [provider p]) /\
  length (getRegisteredProviders w') =
    (if hasProvider (provider p) w
     then length (getRegisteredProviders w)
     else S (length (getRegisteredProviders w))).
Proof.
  intros Hr. destruct (reachable_wf Hr) as [Hm _].
  pose proof (map_ok_mutated (RegisterProvider p) Hm) as [_ Hk']. destruct Hm as [_ Hk].
  change (registerProvider run p w) with (perform run (RegisterProvider p) w).
  rewrite perform_spec. unfold getRegisteredProviders, hasProvider. simpl in *.
  rewrite (keyed_values Hk'), (keyed_values Hk), JSMapFacts.keys_set.
  rewrite !JSMapMore.length_values, JSMapFacts.keys_set.
  destruct (JSMap.has (provider p) (externalProviders w)); split; trivial.
  rewrite length_app. simpl. lia.
Qed.

(** Registering under a key that is not there and unregistering it again
    gives back the provider map as it was (its order included). *)
Theorem register_then_unregister_restores (p : ProviderTemplate) (w : world) :
  hasProvider (provider p) w = false ->
  externalProviders
    (snd (unregisterProvider run (provider p) (snd (registerProvider run p w)))) =
  externalProviders w.
Proof.
  intros Hfresh.
  change (registerProvider run p w) with (perform run (RegisterProvider p) w).
  change (unregisterProvider run (provider p)) with (perform run (UnregisterProvider (provider p))).
  rewrite !perform_spec. simpl.
  apply JSMapMore.delete_set_fresh.
  unfold hasProvider in Hfresh. rewrite JSMapFacts.has_get in Hfresh.
  now destruct (JSMap.get (provider p) (externalProviders w)).
Qed.

(** [clearAll()] returns and leaves no provider, whatever was registered;
    the subscriptions stay, and each subscribed listener is called exactly
    once, also when the registry was already empty. *)
Theorem clearAll_empties_and_notifies (w : world) :
  reachable run w ->
  exists w' evs,
    clearAll run w = (Normal tt, w') /\
    getRegisteredProviders w' = [] /\
    (forall k, getProvider k w' = None /\ hasProvider k w' = false) /\
    providerLoadCallbacks w' = providerLoadCallbacks w /\
    trace w' = trace w ++ evs /\
    (forall c, count_calls c evs = if JSSet.mem c (providerLoadCallbacks w) then 1 else 0).
Proof.
  intros Hr. destruct (reachable_wf Hr) as [_ Hnd].
  eexists. eexists. split; [apply (perform_spec run ClearAll)|].
  simpl. repeat split.
  intros c. now apply count_calls_notification.
Qed.

(** Every mutating method notifies after its change has taken effect: each
    listener called in the batch sees the provider map the method leaves, and
    the batch makes as many calls as there are subscriptions. *)
Theorem listeners_see_the_mutation (mu : mutation) (w : world) :
  exists w' evs,
    perform run mu w = (Normal tt, w') /\
    trace w' = trace w ++ evs /\
    seen_by_calls evs = List.map (fun _ => externalProviders w') (providerLoadCallbacks w) /\
    length (called evs) = length (providerLoadCallbacks w) /\
    externalProviders w' = mutated mu (externalProviders w).
Proof.
  eexists. eexists. split; [apply perform_spec|]. simpl.
  split; [reflexivity|]. split; [apply seen_by_calls_notification|].
  split; [now rewrite called_notification | reflexivity].
Qed.

(** *** The config loader *)

Lemma every_true_iff {A} (f : A -> completion bool) xs :
  every f xs = Normal true <-> Forall (fun x => f x = Normal true) xs.
Proof.
  induction xs as [|x rest IH]; simpl.
  - split; [constructor | reflexivity].
  - destruct (f x) as [[|]|e] eqn:E.
    + rewrite IH. split; [now constructor | now inversion 1].
    + split; [discriminate | inversion 1; congruence].
    + split; [discriminate | inversion 1; congruence].
Qed.

Lemma as_template_Some_iff v :
  (exists t, as_template v = Some t) <->
  exists props p b s,
    v = VObject props /\
    lookup "provider" props = Some (VString p) /\
    lookup "base_url" props = Some (VString b) /\
    lookup "settings" props = Some (VArray s).
Proof.
  unfold as_template. split.
  - intros [t Ht]. destruct v as [| | | | | |props]; try discriminate.
    destruct (lookup "provider" props) as [[| | | |p| |]|] eqn:L1; try discriminate.
    destruct (lookup "base_url" props) as [[| | | |b| |]|] eqn:L2; try discriminate.
    destruct (lookup "settings" props) as [[| | | | |s|]|] eqn:L3; try discriminate.
    now exists props, p, b, s.
  - intros (props & p & b & s & -> & -> & -> & ->). eexists. reflexivity.
Qed.

(** The validator accepts a config exactly when it is an object whose
    [providers] is an array (possibly empty) of objects that each have a
    string [provider], a string [base_url] and an array [settings]; nothing
    else about the elements is looked at. *)
Theorem validateProviderConfig_accepts_iff (config : value) :
  validateProviderConfig config = Normal true <->
  exists cprops elems,
    config = VObject cprops /\
    lookup "providers" cprops = Some (VArray elems) /\
    Forall (fun v =>
      exists props p b s,
        v = VObject props /\
        lookup "provider" props = Some (VString p) /\
        lookup "base_url" props = Some (VString b) /\
        lookup "settings" props = Some (VArray s)) elems.
Proof.
  unfold validateProviderConfig. split.
  - destruct (truthy config) eqn:T; simpl; [|discriminate].
    destruct config as [| | | | | |cprops]; simpl; try discriminate.
    destruct (lookup "providers" cprops) as [ps|] eqn:L; simpl; [|discriminate].
    destruct ps as [| | | | |elems|]; try discriminate.
    intros Hall. exists cprops, elems. repeat split; trivial.
    apply every_true_iff in Hall. eapply Forall_impl; [|exact Hall].
    intros v Hv. apply as_template_Some_iff. now apply element_ok_true.
  - intros (cprops & elems & -> & L & Hall). simpl. rewrite L. simpl.
    apply every_true_iff. eapply Forall_impl; [|exact Hall].
    intros v Hv. apply element_ok_true. now apply as_template_Some_iff.
Qed.

(** A config the validator accepts is loaded whole: the call returns, every
    element of the bundle is registered (none is lost in the typed view), a
    key given several times ends at its last element, keys the bundle does
    not mention keep their entries, and the listeners get one notification. *)
Theorem loadProvidersFromConfig_loads_all (config : value) (w : world) :
  validateProviderConfig config = Normal true ->
  exists elems w' evs,
    JS.get "providers" config = Normal (VArray elems) /\
    List.map as_template elems = List.map Some (config_providers config) /\
    loadProvidersFromConfig run config w = (Normal tt, w') /\
    (forall t, In t (config_providers config) -> hasProvider (provider t) w' = true) /\
    (forall k, getProvider k w' =
               match last_with_key k (config_providers config) with
               | Some t => Some t
               | None => getProvider k w
               end) /\
    trace w' = trace w ++ evs /\
    called evs = providerLoadCallbacks w.
Proof.
  intros Hv. destruct (validateProviderConfig_true _ Hv) as (elems & Hg & Hmap).
  exists elems. rewrite loadProvidersFromConfig_spec, Hv.
  eexists. eexists. split; [exact Hg|]. split; [exact Hmap|].
  split; [apply perform_spec|]. simpl.
  assert (Hlast : forall k,
    JSMap.get k (fold_left (fun m p => JSMap.set (provider p) p m)
                   (config_providers config) (externalProviders w)) =
    match last_with_key k (config_providers config) with
    | Some t => Some t
    | None => getProvider k w
    end) by (intros k; apply get_fold_set).
  split; [|split; [exact Hlast | split; [reflexivity | apply called_notification]]].
  intros t Hin. unfold hasProvider. simpl. rewrite JSMapFacts.has_get, Hlast.
  destruct (last_with_key (provider t) (config_providers config)) eqn:E; [reflexivity|].
  unfold last_with_key in E. apply in_rev in Hin.
  pose proof (find_none _ _ E t Hin) as Hno. simpl in Hno.
  now rewrite String.eqb_refl in Hno.
Qed.

Lemma every_element_ok_throws elems e :
  every element_ok elems = Throw e -> exists msg, e = TypeError msg.
Proof.
  induction elems as [|v rest IH]; simpl; [discriminate|].
  destruct (element_ok v) as [[|]|e0] eqn:E; [exact IH | discriminate |].
  intros [= <-]. unfold element_ok, JS.get in E.
  destruct v as [| | | | | |props]; simpl in E; try discriminate;
    try (injection E as <-; eexists; reflexivity).
  destruct (lookup "provider" props) as [[]|]; simpl in E; try discriminate;
    destruct (lookup "base_url" props) as [[]|]; simpl in E; try discriminate;
    destruct (lookup "settings" props) as [[]|]; simpl in E; discriminate.
Qed.

(** [loadProvidersFromConfig] ends in one of three ways and no other: it
    returns (the validator accepted); it throws the validation error (the
    validator refused); or it throws the TypeError of a property read on a
    null or undefined element.  In the two failing cases the state is exactly
    the state before: nothing registered, nobody notified. *)
Theorem loadProvidersFromConfig_outcomes (config : value) (w : world) :
  (validateProviderConfig config = Normal true /\
   exists w', loadProvidersFromConfig run config w = (Normal tt, w')) \/
  (validateProviderConfig config = Normal false /\
   loadProvidersFromConfig run config w =
     (Throw (Error "Invalid provider configuration format"), w)) \/
  (exists msg,
     validateProviderConfig config = Throw (TypeError msg) /\
     loadProvidersFromConfig run config w = (Throw (TypeError msg), w)).
Proof.
  rewrite loadProvidersFromConfig_spec.
  destruct (validateProviderConfig config) as [[|]|e] eqn:Hv.
  - left. split; [reflexivity|]. rewrite perform_spec. eexists. reflexivity.
  - right. left. now split.
  - right. right.
    assert (Hty : exists msg, e = TypeError msg).
    { unfold validateProviderConfig in Hv.
      destruct (truthy config); simpl in Hv; [|discriminate].
      destruct (JS.get "providers" config) as [ps|e0] eqn:G; simpl in Hv.
      - destruct ps; try discriminate. now apply every_element_ok_throws in Hv.
      - destruct config; simpl in G; try discriminate;
          try (injection G as <-; injection Hv as <-; eexists; reflexivity).
        destruct (lookup "providers" props); discriminate. }
    destruct Hty as [msg ->]. exists msg. now split.
Qed.

(** *** Loading from a URL *)

(** A failed load from a URL: a rejected fetch is rethrown as it is; a
    response that is not ok gives the error naming the URL and the status
    text; and whatever the failure, the provider map and the subscriptions
    are untouched, no listener is called, and the error thrown is the one
    written to the console, once, after the fetch. *)
Theorem loadProvidersFromUrl_failure (url : string) (fetched : completion response) (w : world) :
  (forall e, fetched = Throw e ->
     fst (loadProvidersFromUrl run url fetched w) = Throw e) /\
  (forall r, fetched = Normal r -> ok r = false ->
     fst (loadProvidersFromUrl run url fetched w) =
     Throw (Error ("Failed to fetch providers from " ++ url ++ ": " ++ statusText r))) /\
  (forall e w', loadProvidersFromUrl run url fetched w = (Throw e, w') ->
     externalProviders w' = externalProviders w /\
     providerLoadCallbacks w' = providerLoadCallbacks w /\
     trace w' = trace w ++ [Fetch url; ConsoleError "Error loading providers from URL:" e]).
Proof.
  rewrite loadProvidersFromUrl_spec. split; [|split].
  - intros e ->. reflexivity.
  - intros r -> Hok. simpl. now rewrite Hok.
  - intros e w' Hthrow.
    destruct (url_outcome url fetched) as [e0|ps];
      [|rewrite perform_spec in Hthrow; discriminate].
    injection Hthrow as <- <-. simpl. rewrite <- app_assoc. now repeat split.
Qed.

(** A load from a URL whose response is ok and parses ends as
    [loadProvidersFromConfig] of the parsed body does: the same completion
    and the same provider map; for a body the validator accepts the two
    calls agree on the whole state. *)
Theorem loadProvidersFromUrl_as_config (url : string) (r : response) (config : value) (w : world) :
  ok r = true -> json r = Normal config ->
  let from_url := loadProvidersFromUrl run url (Normal r) w in
  let from_config := loadProvidersFromConfig run config (emit (Fetch url) w) in
  fst from_url = fst from_config /\
  externalProviders (snd from_url) = externalProviders (snd from_config) /\
  providerLoadCallbacks (snd from_url) = providerLoadCallbacks (snd from_config) /\
  (validateProviderConfig config = Normal true -> from_url = from_config).
Proof.
  intros Hok Hjson. simpl.
  rewrite loadProvidersFromUrl_spec, loadProvidersFromConfig_spec.
  unfold url_outcome. rewrite Hok, Hjson. simpl.
  destruct (validateProviderConfig config) as [[|]|e]; simpl; repeat split; discriminate.
Qed.

(** *** What the getters and the subscriptions show *)

(** [getRegisteredProviders()] never lists two templates with the same
    [provider], and [getProvider] finds every template it lists. *)
Theorem registered_providers_are_distinct (w : world) :
  reachable run w ->
  NoDup (List.map provider (getRegisteredProviders w)) /\
  (forall t, In t (getRegisteredProviders w) -> getProvider (provider t) w = Some t).
Proof.
  intros Hr. destruct (reachable_wf Hr) as [[Hnd Hk] _].
  unfold getRegisteredProviders, getProvider. split.
  - now rewrite (keyed_values Hk).
  - revert Hnd Hk. unfold keyed, JSMap.values, JSMap.keys.
    induction (externalProviders w) as [|[k t0] rest IH]; simpl; [tauto|].
    intros Hnd Hk t Hin. inversion Hnd as [|? ? Hnotin Hnd']; subst.
    inversion Hk as [|? ? Hk0 Hk']; subst. simpl in Hk0.
    destruct Hin as [<-|Hin].
    + now rewrite Hk0, String.eqb_refl.
    + destruct (String.eqb_spec k (provider t)) as [->|_]; [|now apply IH].
      exfalso. apply Hnotin. apply in_map_iff in Hin as [[k1 t1] [<- Hin1]].
      rewrite Forall_forall in Hk'. rewrite (Hk' _ Hin1).
      apply in_map_iff. now exists (k1, t1).
Qed.

Lemma delete_add_fresh c s : JSSet.mem c s = false -> JSSet.delete c (JSSet.add c s) = s.
Proof.
  intros Hm. unfold JSSet.add. rewrite Hm. unfold JSSet.delete.
  rewrite filter_app. simpl. rewrite Nat.eqb_refl. simpl. rewrite app_nil_r.
  apply JSSetFacts.mem_false_not_In in Hm.
  induction s as [|d s IH]; simpl; [reflexivity|].
  destruct (Nat.eqb_spec c d) as [->|Hne]; simpl.
  - exfalso. apply Hm. now left.
  - rewrite IH; [reflexivity|]. intros Hin. apply Hm. now right.
Qed.

(** While a function is subscribed every mutation calls it exactly once;
    after the handle that [onProvidersChanged] returned has been called, no
    mutation calls it, and every other subscriber is still called exactly
    once.  Subscribing a function that was not subscribed and unsubscribing
    it again restores the set of listeners; neither step touches the
    providers. *)
Theorem unsubscribe_stops_notifications (c : JSSet.ref) (mu : mutation) (w : world) :
  reachable run w ->
  exists u w1 w2 during after,
    onProvidersChanged c w = (Normal u, w1) /\
    call_unsubscribe u w1 = (Normal tt, w2) /\
    trace (snd (perform run mu w1)) = trace w1 ++ during /\
    count_calls c during = 1 /\
    trace (snd (perform run mu w2)) = trace w2 ++ after /\
    count_calls c after = 0 /\
    (forall d, d <> c ->
       count_calls d after = if JSSet.mem d (providerLoadCallbacks w) then 1 else 0) /\
    (JSSet.mem c (providerLoadCallbacks w) = false ->
       providerLoadCallbacks w2 = providerLoadCallbacks w) /\
    externalProviders w2 = externalProviders w.
Proof.
  intros Hr. destruct (reachable_wf Hr) as [_ Hnd].
  pose proof (JSSetFacts.NoDup_add c Hnd) as Hnd1.
  pose proof (JSSetFacts.NoDup_delete c Hnd1) as Hnd2.
  do 5 eexists. split; [reflexivity|]. split; [reflexivity|].
  rewrite !perform_spec. simpl.
  split; [reflexivity|]. split.
  { rewrite count_calls_notification by exact Hnd1.
    now rewrite JSSetFacts.mem_add, Nat.eqb_refl. }
  split; [reflexivity|]. split.
  { rewrite count_calls_notification by exact Hnd2.
    now rewrite JSSetFacts.mem_delete_eq. }
  split.
  { intros d Hd. rewrite count_calls_notification by exact Hnd2.
    rewrite JSSetFacts.mem_delete_ne by exact Hd. rewrite JSSetFacts.mem_add.
    destruct (Nat.eqb_spec c d) as [->|_]; [contradiction | reflexivity]. }
  split; [apply delete_add_fresh | reflexivity].
Qed.

(** *** Batches *)

(** How batches compose.  An empty batch changes no provider and still
    notifies every listener once.  A batch of one is [registerProvider] (the
    same completion, state and trace).  A batch in two parts leaves the
    provider map that the two parts registered one after the other leave,
    but notifies once where the two calls notify twice. *)
Theorem registerProviders_composes (ps qs : list ProviderTemplate) (p : ProviderTemplate) (w : world) :
  (exists evs,
     registerProviders run [] w =
       (Normal tt,
        {| externalProviders := externalProviders w;
           providerLoadCallbacks := providerLoadCallbacks w;
           trace := trace w ++ evs |}) /\
     called evs = providerLoadCallbacks w) /\
  registerProviders run [p] w = registerProvider run p w /\
  externalProviders (snd (registerProviders run (ps ++ qs) w)) =
    externalProviders (snd (registerProviders run qs (snd (registerProviders run ps w)))) /\
  length (called (trace (snd (registerProviders run (ps ++ qs) w)))) +
    length (providerLoadCallbacks w) =
  length (called (trace (snd (registerProviders run qs (snd (registerProviders run ps w)))))).
Proof.
  split.
  { eexists. split; [apply (perform_spec run (RegisterProviders []))|].
    apply called_notification. }
  split; [reflexivity|].
  change (registerProviders run) with (fun l => perform run (RegisterProviders l)).
  cbv beta. rewrite !perform_spec. simpl. split.
  - now rewrite fold_left_app.
  - assert (Hc : forall a b, called (a ++ b) = called a ++ called b).
    { induction a as [|[] a IH]; intros b; simpl; now rewrite ?IH. }
    rewrite !Hc, !called_notification, !length_app. lia.
Qed.

End Properties.
End RegistryMore.

(* ===================================================================== *)
(** ** The wrappers: further properties *)
(* ===================================================================== *)

Module ServicesMore.
Import JS Services.

Section Properties.
Context {number : Type} `{JSNumber number}.
Variable browser : platform.
Variable post_json : Pollinations.chat_request number -> completion response.

(** The shape shared by the GET calls: one request, then the response read
    by [read]. *)
Lemma get_call_settles {A} (req : request) (failure label : string)
  (read : response -> completion A) :
  let attempt :=
    JS.bind (fetch browser req) (fun r =>
      if negb (ok r) then Throw (Error (failure ++ statusText r)) else read r) in
  let call : async A :=
    match attempt with
    | Normal a => (Normal a, [Fetched req])
    | Throw error => (Throw error, [Fetched req; ConsoleError label error])
    end in
  requests (snd call) = [req] /\
  (forall a, fst call = Normal a <->
     exists r, fetch browser req = Normal r /\ ok r = true /\ read r = Normal a) /\
  (forall r, fetch browser req = Normal r -> ok r = false ->
     fst call = Throw (Error (failure ++ statusText r))) /\
  (forall e, fetch browser req = Throw e -> fst call = Throw e) /\
  (forall a, fst call = Normal a -> snd call = [Fetched req]) /\
  (forall e, fst call = Throw e -> snd call = [Fetched req; ConsoleError label e]).
Proof.
  cbv zeta. destruct (fetch browser req) as [r|e0] eqn:Hf; simpl.
  - destruct (ok r) eqn:Hok; simpl.
    + destruct (read r) as [a0|e1] eqn:Hread; simpl.
      * split; [reflexivity|]. split.
        { intros a. split.
          - intros [= <-]. now exists r.
          - intros (r' & [= <-] & _ & Hr). congruence. }
        split; [intros r' [= <-] Hok'; congruence|].
        split; [discriminate|]. split; [reflexivity | discriminate].
      * split; [reflexivity|]. split.
        { intros a. split; [discriminate|].
          intros (r' & [= <-] & _ & Hr). congruence. }
        split; [intros r' [= <-] Hok'; congruence|].
        split; [discriminate|]. split; [discriminate|]. now intros e [= <-].
    + split; [reflexivity|]. split.
      { intros a. split; [discriminate|].
        intros (r' & [= <-] & Hok' & _). congruence. }
      split; [now intros r' [= <-] _|].
      split; [discriminate|]. split; [discriminate|]. now intros e [= <-].
  - split; [reflexivity|]. split.
    { intros a. split; [discriminate|]. intros (r' & Hr & _). discriminate. }
    split; [discriminate|]. split; [now intros e [= <-]|].
    split; [discriminate|]. now intros e [= <-].
Qed.

(** [generateImage] and [generateVideo] build their URL before the [try].
    When [encodeURIComponent] throws on the prompt, the call rejects with
    what it threw, and nothing is requested or written to the console.
    Otherwise the call issues exactly one GET, to the URL built from the
    encoded prompt, and never a second one: the promise resolves with the
    blob exactly when the fetch answered, the response is ok and its blob
    could be read; a response that is not ok rejects with "Image generation
    failed: " (or "Video generation failed: ") followed by the status text; a
    rejected fetch is rethrown as it is; and the error is written to the
    console exactly when the call rejects. *)
Theorem generation_calls_settle
  (this : PollinationsService) (prompt : string)
  (options : ImageGenerationOptions number) (video_options : VideoGenerationOptions number) :
  (let call := generateImage browser this prompt options in
   (forall e, encodeURIComponent browser prompt = Throw e -> call = (Throw e, [])) /\
   (forall encoded, encodeURIComponent browser prompt = Normal encoded ->
      let req :=
        {| url := (pollinations_baseUrl this ++ "/image/" ++ encoded ++ "?"
                   ++ params_toString browser (imageParams options))%string;
           method := "GET"; headers := authorization (pollinations_apiKey this);
           body := None |} in
      requests (snd call) = [req] /\
      (forall b, fst call = Normal b <->
         exists r, fetch browser req = Normal r /\ ok r = true /\ blob r = Normal b) /\
      (forall r, fetch browser req = Normal r -> ok r = false ->
         fst call = Throw (Error ("Image generation failed: " ++ statusText r))) /\
      (forall e, fetch browser req = Throw e -> fst call = Throw e) /\
      (forall b, fst call = Normal b -> Pollinations.logged (snd call) = []) /\
      (forall e, fst call = Throw e -> Pollinations.logged (snd call) = [e]))) /\
  (let call := generateVideo browser this prompt video_options in
   (forall e, encodeURIComponent browser prompt = Throw e -> call = (Throw e, [])) /\
   (forall encoded, encodeURIComponent browser prompt = Normal encoded ->
      let req :=
        {| url := (pollinations_baseUrl this ++ "/image/" ++ encoded ++ "?"
                   ++ params_toString browser (videoParams video_options))%string;
           method := "GET"; headers := authorization (pollinations_apiKey this);
           body := None |} in
      requests (snd call) = [req] /\
      (forall b, fst call = Normal b <->
         exists r, fetch browser req = Normal r /\ ok r = true /\ blob r = Normal b) /\
      (forall r, fetch browser req = Normal r -> ok r = false ->
         fst call = Throw (Error ("Video generation failed: " ++ statusText r))) /\
      (forall e, fetch browser req = Throw e -> fst call = Throw e) /\
      (forall b, fst call = Normal b -> Pollinations.logged (snd call) = []) /\
      (forall e, fst call = Throw e -> Pollinations.logged (snd call) = [e]))).
Proof.
  split; cbv zeta.
  - split.
    + intros e He. unfold generateImage. now rewrite He.
    + intros encoded He. unfold generateImage. rewrite He. cbv zeta.
      match goal with |- context [Fetched ?r] => set (req := r) end.
      destruct (get_call_settles req "Image generation failed: " "Error generating image:" blob)
        as (H1 & H2 & H3 & H4 & H5 & H6).
      split; [exact H1|]. split; [exact H2|]. split; [exact H3|].
      split; [exact H4|]. split.
      * intros b Hb. now rewrite (H5 b Hb).
      * intros e He'. now rewrite (H6 e He').
  - split.
    + intros e He. unfold generateVideo. now rewrite He.
    + intros encoded He. unfold generateVideo. rewrite He. cbv zeta.
      match goal with |- context [Fetched ?r] => set (req := r) end.
      destruct (get_call_settles req "Video generation failed: " "Error generating video:" blob)
        as (H1 & H2 & H3 & H4 & H5 & H6).
      split; [exact H1|]. split; [exact H2|]. split; [exact H3|].
      split; [exact H4|]. split.
      * intros b Hb. now rewrite (H5 b Hb).
      * intros e He'. now rewrite (H6 e He').
Qed.

(** [getTextModels] and [getImageModels] issue exactly one GET, to
    [/v1/models] and [/image/models] under the base URL.  The promise
    resolves with the parsed body exactly when the fetch answered, the
    response is ok and its body parsed; a response that is not ok rejects
    with "Failed to fetch models: " (or "Failed to fetch image models: ")
    followed by the status text; the error is written to the console exactly
    when the call rejects. *)
Theorem model_listings_settle (this : PollinationsService) :
  (let call := Pollinations.getTextModels browser this in
   let req := {| url := (pollinations_baseUrl this ++ "/v1/models")%string; method := "GET";
                 headers := authorization (pollinations_apiKey this); body := None |} in
   requests (snd call) = [req] /\
   (forall models, fst call = Normal models <->
      exists r, fetch browser req = Normal r /\ ok r = true /\ json r = Normal models) /\
   (forall r, fetch browser req = Normal r -> ok r = false ->
      fst call = Throw (Error ("Failed to fetch models: " ++ statusText r))) /\
   (forall models, fst call = Normal models -> Pollinations.logged (snd call) = []) /\
   (forall e, fst call = Throw e -> Pollinations.logged (snd call) = [e])) /\
  (let call := Pollinations.getImageModels browser this in
   let req := {| url := (pollinations_baseUrl this ++ "/image/models")%string; method := "GET";
                 headers := authorization (pollinations_apiKey this); body := None |} in
   requests (snd call) = [req] /\
   (forall models, fst call = Normal models <->
      exists r, fetch browser req = Normal r /\ ok r = true /\ json r = Normal models) /\
   (forall r, fetch browser req = Normal r -> ok r = false ->
      fst call = Throw (Error ("Failed to fetch image models: " ++ statusText r))) /\
   (forall models, fst call = Normal models -> Pollinations.logged (snd call) = []) /\
   (forall e, fst call = Throw e -> Pollinations.logged (snd call) = [e])).
Proof.
  split; cbv zeta.
  - unfold Pollinations.getTextModels.
    match goal with |- context [Fetched ?r] => set (req := r) end.
    destruct (get_call_settles req "Failed to fetch models: " "Error fetching text models:" json)
      as (H1 & H2 & H3 & _ & H5 & H6).
    split; [exact H1|]. split; [exact H2|]. split; [exact H3|]. split.
    + intros b Hb. now rewrite (H5 b Hb).
    + intros e He. now rewrite (H6 e He).
  - unfold Pollinations.getImageModels.
    match goal with |- context [Fetched ?r] => set (req := r) end.
    destruct (get_call_settles req "Failed to fetch image models: "
                "Error fetching image models:" json)
      as (H1 & H2 & H3 & _ & H5 & H6).
    split; [exact H1|]. split; [exact H2|]. split; [exact H3|]. split.
    + intros b Hb. now rewrite (H5 b Hb).
    + intros e He. now rewrite (H6 e He).
Qed.

(** *** [generateText] *)

Lemma opt_get_falsy_source name v :
  Registry.readable v = false -> Pollinations.opt_get name v = VUndefined.
Proof. destruct v; simpl; congruence. Qed.

(** What [generateText] makes of the parsed response
    ([data.choices?.[0]?.message?.content || '']).  On null or undefined the
    read of [choices] throws a TypeError; on anything else there is a result,
    and it is never a falsy value other than the empty string.  When
    [choices] is an array whose first element has a [message] with a truthy
    [content], that content is the result; when [choices] is missing, null
    or an empty array, the result is the empty string. *)
Theorem first_content_of_response (data : value) :
  (Registry.readable data = false ->
     exists msg, Pollinations.first_content data = Throw (TypeError msg)) /\
  (Registry.readable data = true ->
     exists v, Pollinations.first_content data = Normal v /\
               (truthy v = true \/ v = VString "")) /\
  (forall props first rest mprops text,
     data = VObject props ->
     lookup "choices" props = Some (VArray (VObject first :: rest)) ->
     lookup "message" first = Some (VObject mprops) ->
     lookup "content" mprops = Some text ->
     truthy text = true ->
     Pollinations.first_content data = Normal text) /\
  (forall props,
     data = VObject props ->
     (lookup "choices" props = None \/ lookup "choices" props = Some VNull \/
      lookup "choices" props = Some (VArray [])) ->
     Pollinations.first_content data = Normal (VString "")).
Proof.
  unfold Pollinations.first_content. split; [|split; [|split]].
  - destruct data; simpl; try discriminate; intros _; eexists; reflexivity.
  - intros Hr.
    assert (Hg : exists choices, JS.get "choices" data = Normal choices).
    { destruct data; simpl in *; try discriminate; try (eexists; reflexivity).
      destruct (lookup "choices" props); eexists; reflexivity. }
    destruct Hg as [choices ->]. simpl.
    set (c := Pollinations.opt_get "content"
                (Pollinations.opt_get "message" (Pollinations.opt_index0 choices))).
    exists (if truthy c then c else VString ""). split; [reflexivity|].
    destruct (truthy c) eqn:T; [left; exact T | right; reflexivity].
  - intros props first rest mprops text -> Hc Hm Ht Htruthy. simpl.
    rewrite Hc. simpl. rewrite Hm. simpl. rewrite Ht. now rewrite Htruthy.
  - intros props -> [Hc | [Hc | Hc]]; simpl; rewrite Hc; reflexivity.
Qed.

(** [generateText] issues exactly one POST to [/v1/chat/completions] under
    the base URL, with a JSON content type and the credential when one is
    held.  Its body always names a model ("openai" when none or an empty one
    is given) and a stream flag (false when none is given); the temperature
    goes as given, also when it is 0; [system] and [seed] go only when
    truthy.  The promise resolves exactly when the fetch answered, the
    response is ok, its body parsed and the read of [choices] did not throw;
    a response that is not ok rejects with "Text generation failed: "
    followed by the status text. *)
Theorem generateText_settles (this : PollinationsService)
  (messages : list Pollinations.message) (options : Pollinations.TextGenerationOptions number) :
  let call := Pollinations.generateText post_json this messages options in
  let payload := Pollinations.chatBody messages options in
  let req :=
    {| Pollinations.chat_url := (pollinations_baseUrl this ++ "/v1/chat/completions")%string;
       Pollinations.chat_method := "POST";
       Pollinations.chat_headers :=
         ("Content-Type", "application/json") :: authorization (pollinations_apiKey this);
       Pollinations.chat_payload := payload |} in
  Pollinations.posted (snd call) = [req] /\
  (string_truthy (Pollinations.body_model payload) = true /\
   (forall m, Pollinations.text_model options = Some m -> string_truthy m = true ->
      Pollinations.body_model payload = m) /\
   (Pollinations.text_model options = None \/ Pollinations.text_model options = Some "" ->
      Pollinations.body_model payload = "openai") /\
   Pollinations.body_messages payload = messages /\
   Pollinations.body_temperature payload = Pollinations.temperature options /\
   (Pollinations.body_stream payload = true <-> Pollinations.stream options = Some true) /\
   (forall sys, Pollinations.body_system payload = Some sys <->
      Pollinations.system options = Some sys /\ string_truthy sys = true) /\
   (forall n, Pollinations.body_seed payload = Some n <->
      Pollinations.text_seed options = Some n /\ number_truthy n = true)) /\
  (forall v, fst call = Normal v <->
     exists r data,
       post_json req = Normal r /\ ok r = true /\ json r = Normal data /\
       Pollinations.first_content data = Normal v) /\
  (forall r, post_json req = Normal r -> ok r = false ->
     fst call = Throw (Error ("Text generation failed: " ++ statusText r))).
Proof.
  cbv zeta. unfold Pollinations.generateText.
  match goal with |- context [Pollinations.Posted ?r] => set (req := r) end.
  split; [|split; [|split]].
  - match goal with |- context [JS.bind ?c ?k] => destruct (JS.bind c k) end; reflexivity.
  - unfold Pollinations.chatBody. simpl.
    destruct (Pollinations.text_model options) as [m|] eqn:Hm;
      destruct (Pollinations.stream options) as [[|]|] eqn:Hs;
      destruct (Pollinations.system options) as [sys|] eqn:Hy;
      destruct (Pollinations.text_seed options) as [n|] eqn:Hn;
      try (destruct (string_truthy m) eqn:Tm);
      try (destruct (string_truthy sys) eqn:Ty);
      try (destruct (number_truthy n) eqn:Tn);
      repeat match goal with
             | |- _ /\ _ => split
             | |- _ <-> _ => split
             | |- forall _, _ => intro
             | Hx : _ /\ _ |- _ => destruct Hx
             | Hx : _ \/ _ |- _ => destruct Hx
             | Hx : Some _ = Some _ |- _ => injection Hx as ->
             end;
      try reflexivity; try discriminate; try congruence; auto.
    all: unfold string_truthy in *;
      try match goal with
          | Hx : negb (?m =? "") = false |- _ =>
              apply negb_false_iff, String.eqb_eq in Hx; subst
          end; try congruence; try reflexivity.
  - intros v. destruct (post_json req) as [r|e] eqn:Hp; simpl.
    + destruct (ok r) eqn:Hok; simpl.
      * destruct (json r) as [data|e] eqn:Hj; simpl.
        -- destruct (Pollinations.first_content data) as [v0|e] eqn:Hc; simpl.
           ++ split.
              ** intros [= <-]. now exists r, data.
              ** intros (r' & d' & [= <-] & _ & Hj' & Hc'). congruence.
           ++ split; [discriminate|].
              intros (r' & d' & [= <-] & _ & Hj' & Hc'). congruence.
        -- split; [discriminate|].
           intros (r' & d' & [= <-] & _ & Hj' & _). congruence.
      * split; [discriminate|].
        intros (r' & d' & [= <-] & Hok' & _). congruence.
    + split; [discriminate|]. intros (r' & d' & Hr & _). discriminate.
  - intros r Hr Hok. rewrite Hr. simpl. now rewrite Hok.
Qed.

(** The configuration mutators act on the calls that follow: after
    [setApiKey(k)] and [setBaseUrl(b)], in either order, every call goes
    under [b] and carries "Authorization: Bearer k" when [k] is not empty and
    no credential otherwise ([generateImage] issues its request when the
    prompt could be encoded, and none otherwise); [isConfigured()] tells
    which.  A service built without an environment key is not configured and
    addresses https://gen.pollinations.ai. *)
Theorem pollinations_configuration (this : PollinationsService) (k b : string)
  (prompt : string) (options : ImageGenerationOptions number)
  (messages : list Pollinations.message)
  (text_options : Pollinations.TextGenerationOptions number) :
  let s := Pollinations.setBaseUrl b (Pollinations.setApiKey k this) in
  let credential := if k =? "" then [] else [("Authorization", ("Bearer " ++ k)%string)] in
  s = Pollinations.setApiKey k (Pollinations.setBaseUrl b this) /\
  Pollinations.isConfigured s = negb (k =? "") /\
  List.map (fun r => (url r, headers r)) (requests (snd (generateImage browser s prompt options))) =
    match encodeURIComponent browser prompt with
    | Normal encoded =>
        [ ((b ++ "/image/" ++ encoded ++ "?"
            ++ params_toString browser (imageParams options))%string, credential) ]
    | Throw _ => []
    end /\
  List.map (fun r => (url r, headers r)) (requests (snd (Pollinations.getTextModels browser s))) =
    [ ((b ++ "/v1/models")%string, credential) ] /\
  List.map (fun r => (url r, headers r)) (requests (snd (Pollinations.getImageModels browser s))) =
    [ ((b ++ "/image/models")%string, credential) ] /\
  List.map (fun r => (Pollinations.chat_url r, Pollinations.chat_headers r))
    (Pollinations.posted (snd (Pollinations.generateText post_json s messages text_options))) =
    [ ((b ++ "/v1/chat/completions")%string,
       ("Content-Type", "application/json") :: credential) ] /\
  Pollinations.isConfigured (Pollinations.new_PollinationsService None) = false /\
  pollinations_baseUrl (Pollinations.new_PollinationsService None) = "https://gen.pollinations.ai".
Proof.
  cbv zeta. split; [reflexivity|]. split; [reflexivity|].
  assert (Hauth : authorization k =
                  if k =? "" then [] else [("Authorization", ("Bearer " ++ k)%string)]).
  { unfold authorization, string_truthy. now destruct (k =? ""). }
  split; [|split; [|split; [|split; [|split; reflexivity]]]].
  - unfold generateImage. simpl pollinations_apiKey. rewrite Hauth.
    destruct (encodeURIComponent browser prompt) as [encoded|e]; [|reflexivity].
    match goal with |- context [JS.bind ?c ?f] => destruct (JS.bind c f) end; reflexivity.
  - unfold Pollinations.getTextModels. simpl pollinations_apiKey. rewrite Hauth.
    match goal with |- context [JS.bind ?c ?f] => destruct (JS.bind c f) end; reflexivity.
  - unfold Pollinations.getImageModels. simpl pollinations_apiKey. rewrite Hauth.
    match goal with |- context [JS.bind ?c ?f] => destruct (JS.bind c f) end; reflexivity.
  - unfold Pollinations.generateText. simpl pollinations_apiKey. rewrite Hauth.
    match goal with |- context [JS.bind ?c ?f] => destruct (JS.bind c f) end; reflexivity.
Qed.

(** *** [ImgBBService] *)

(** On a configured service, [uploadFile] of a base64 string issues exactly
    one POST, whose form starts with the key and the image.  The promise
    resolves with the parsed body exactly when the fetch answered, the
    response is ok, its body parsed and the body's [success] is truthy.  A
    response that is not ok rejects with "ImgBB upload failed: " followed by
    the status text; a parsed body whose [success] is falsy rejects with
    "ImgBB upload failed"; a body that is null rejects with a TypeError.  The
    error is written to the console exactly when the call rejects. *)
Theorem uploadFile_settles (this : ImgBBService) (base64 : string)
  (options : ImgBBUploadOptions number) :
  isConfigured this = true ->
  let call := uploadFile browser this (inr base64) options in
  exists req,
    requests (snd call) = [req] /\
    method req = "POST" /\
    body req = Some (uploadForm this base64 options) /\
    firstn 2 (uploadForm this base64 options) = [("key", apiKey this); ("image", base64)] /\
    (forall result, fst call = Normal result <->
       exists r success,
         fetch browser req = Normal r /\ ok r = true /\ json r = Normal result /\
         JS.get "success" result = Normal success /\ truthy success = true) /\
    (forall r, fetch browser req = Normal r -> ok r = false ->
       fst call = Throw (Error ("ImgBB upload failed: " ++ statusText r))) /\
    (forall r result success,
       fetch browser req = Normal r -> ok r = true -> json r = Normal result ->
       JS.get "success" result = Normal success -> truthy success = false ->
       fst call = Throw (Error "ImgBB upload failed")) /\
    (forall r result,
       fetch browser req = Normal r -> ok r = true -> json r = Normal result ->
       Registry.readable result = false ->
       exists msg, fst call = Throw (TypeError msg)) /\
    (forall result, fst call = Normal result -> Pollinations.logged (snd call) = []) /\
    (forall e, fst call = Throw e -> Pollinations.logged (snd call) = [e]).
Proof.
  unfold isConfigured. intros Hc. cbv zeta. unfold uploadFile. rewrite Hc. simpl negb. cbv iota.
  unfold post_upload.
  match goal with |- context [Fetched ?r] => set (req := r) end.
  exists req. split.
  { match goal with |- context [JS.bind ?c ?k] => destruct (JS.bind c k) end; reflexivity. }
  split; [reflexivity|]. split; [reflexivity|]. split.
  { unfold uploadForm, append_if, append.
    destruct (name options) as [n|]; [destruct (string_truthy n)|];
      (destruct (expiration options) as [x|]; [destruct (number_truthy x)|]); reflexivity. }
  destruct (fetch browser req) as [r|e0] eqn:Hf; simpl.
  2:{ split.
      { intros result. split; [discriminate|].
        intros (r & s0 & Hr & _). discriminate. }
      split; [discriminate|]. split; [discriminate|]. split; [discriminate|].
      split; [discriminate|]. now intros e [= <-]. }
  destruct (ok r) eqn:Hok; simpl.
  2:{ split.
      { intros result. split; [discriminate|].
        intros (r' & s0 & [= <-] & Hok' & _). congruence. }
      split; [now intros r' [= <-] _|].
      split; [intros r' result s0 [= <-] Hok'; congruence|].
      split; [intros r' result [= <-] Hok'; congruence|].
      split; [discriminate|]. now intros e [= <-]. }
  destruct (json r) as [result|e1] eqn:Hj; simpl.
  2:{ split.
      { intros result. split; [discriminate|].
        intros (r' & s0 & [= <-] & _ & Hj' & _). congruence. }
      split; [intros r' [= <-] Hok'; congruence|].
      split; [intros r' result s0 [= <-] _ Hj'; congruence|].
      split; [intros r' result [= <-] _ Hj'; congruence|].
      split; [discriminate|]. now intros e [= <-]. }
  destruct (JS.get "success" result) as [success|e2] eqn:Hg; simpl.
  2:{ split.
      { intros result'. split; [discriminate|].
        intros (r' & s0 & [= <-] & _ & Hj' & Hg' & _). congruence. }
      split; [intros r' [= <-] Hok'; congruence|].
      split; [intros r' result' s0 [= <-] _ Hj' Hg'; congruence|].
      split.
      { intros r' result' [= <-] _ Hj' _.
        destruct result; simpl in Hg; try discriminate;
          try (injection Hg as <-; eexists; reflexivity).
        destruct (lookup "success" props); discriminate. }
      split; [discriminate|]. now intros e [= <-]. }
  destruct (truthy success) eqn:Ht; simpl.
  - split.
    { intros result'. split.
      - intros [= <-]. now exists r, success.
      - intros (r' & s0 & [= <-] & _ & Hj' & _). congruence. }
    split; [intros r' [= <-] Hok'; congruence|].
    split; [intros r' result' s0 [= <-] _ Hj' Hg' Ht'; congruence|].
    split.
    { intros r' result' [= <-] _ Hj' Hr. assert (result' = result) by congruence. subst.
      destruct result; simpl in Hr, Hg; discriminate. }
    split; [reflexivity | discriminate].
  - split.
    { intros result'. split; [discriminate|].
      intros (r' & s0 & [= <-] & _ & Hj' & Hg' & Ht'). congruence. }
    split; [intros r' [= <-] Hok'; congruence|].
    split; [reflexivity|].
    split.
    { intros r' result' [= <-] _ Hj' Hr. assert (result' = result) by congruence. subst.
      destruct result; simpl in Hr, Hg; discriminate. }
    split; [discriminate|]. now intros e [= <-].
Qed.

Lemma split_comma_free s : ImgBB.comma_free s = true -> split_comma s = [s].
Proof.
  induction s as [|c s IH]; simpl; [reflexivity|].
  destruct (Ascii.eqb c ","%char); simpl; [discriminate|].
  intros Hs. now rewrite (IH Hs).
Qed.

Lemma split_comma_header header rest :
  ImgBB.comma_free header = true ->
  split_comma (header ++ String ","%char rest) = header :: split_comma rest.
Proof.
  induction header as [|c h IH]; simpl; [reflexivity|].
  destruct (Ascii.eqb c ","%char); simpl; [discriminate|].
  intros Hh. now rewrite (IH Hh).
Qed.

(** [uploadFile] of a [File] reads it first and then does what
    [uploadFile] of a string does: with the part of the data URL after its
    comma, or with the text "undefined" when the data URL has no comma.  When
    the read fails the call rejects with nothing requested and nothing written
    to the console. *)
Theorem uploadFile_reads_the_file (this : ImgBBService) (f : File)
  (options : ImgBBUploadOptions number) :
  isConfigured this = true ->
  let from_string image := uploadFile browser this (inr image) options in
  let call := uploadFile browser this (inl f) options in
  (forall header payload,
     readAsDataURL browser f = Loaded (Some (header ++ "," ++ payload)%string) ->
     ImgBB.comma_free header = true -> ImgBB.comma_free payload = true ->
     call = (fst (from_string payload), ReadAsDataURL f :: snd (from_string payload))) /\
  (forall text,
     readAsDataURL browser f = Loaded (Some text) -> ImgBB.comma_free text = true ->
     call = (fst (from_string "undefined"), ReadAsDataURL f :: snd (from_string "undefined"))) /\
  (readAsDataURL browser f = Loaded None ->
     call = (Throw (Error "Failed to convert file to base64"), [ReadAsDataURL f])) /\
  (forall ev, readAsDataURL browser f = Failed ev ->
     call = (Throw ev, [ReadAsDataURL f])).
Proof.
  unfold isConfigured. intros Hc. cbv zeta. unfold uploadFile, fileToBase64. rewrite Hc.
  simpl negb. cbv iota. repeat split.
  - intros header payload Hr Hh Hp. rewrite Hr.
    change (header ++ "," ++ payload)%string with (header ++ String ","%char payload)%string.
    rewrite (split_comma_header _ _ Hh), (split_comma_free _ Hp). simpl.
    now destruct (post_upload browser this (uploadForm this payload options)).
  - intros text Hr Ht. rewrite Hr, (split_comma_free _ Ht). simpl.
    now destruct (post_upload browser this (uploadForm this "undefined" options)).
  - intros Hr. now rewrite Hr.
  - intros ev Hr. now rewrite Hr.
Qed.

Lemma Promise_all_fulfilled_inv {A} (settled : list (completion A)) values :
  ImgBB.Promise_all settled (Normal values) -> settled = List.map Normal values.
Proof. now inversion 1. Qed.

(** [uploadMultiple] starts one upload per file and waits for all.  With no
    file it resolves with the empty list, configured or not, and nothing is
    done.  On a service without credential and at least one file it can only
    reject with the configuration error, and no upload does anything.  When
    it resolves, it does so with one result per file, in the order of the
    files.  On a configured service every base64 string is posted exactly
    once, whatever becomes of the others. *)
Theorem uploadMultiple_settles (this : ImgBBService) (files : list (File + string))
  (options : ImgBBUploadOptions number) :
  (forall outcome, ImgBB.uploadMultiple browser this [] options outcome <-> outcome = Normal []) /\
  (isConfigured this = false -> files <> [] ->
     (forall outcome,
        ImgBB.uploadMultiple browser this files options outcome <->
        outcome = Throw (Error "ImgBB API key is not configured")) /\
     Forall (fun upload => snd upload = []) (ImgBB.uploads browser this files options)) /\
  (forall values,
     ImgBB.uploadMultiple browser this files options (Normal values) ->
     length values = length files /\
     List.map fst (ImgBB.uploads browser this files options) = List.map Normal values) /\
  (isConfigured this = true ->
     forall strings,
       Forall (fun upload => length (requests (snd upload)) = 1)
              (ImgBB.uploads browser this (List.map inr strings) options)).
Proof.
  unfold ImgBB.uploadMultiple, ImgBB.uploads. split; [|split; [|split]].
  - intros outcome. simpl. split.
    + inversion 1 as [values Hv|settled reason Hin]; subst.
      * destruct values; [reflexivity | discriminate].
      * destruct Hin.
    + intros ->. apply (ImgBB.all_fulfilled (A := value) []).
  - intros Hc Hne.
    assert (Hall : forall file, uploadFile browser this file options =
                                (Throw (Error "ImgBB API key is not configured"), [])).
    { intros file. unfold uploadFile. unfold isConfigured in Hc. now rewrite Hc. }
    split.
    + intros outcome. split.
      * inversion 1 as [values Hv|settled reason Hin]; subst.
        -- destruct files as [|file rest]; [contradiction|].
           simpl in Hv. rewrite Hall in Hv. destruct values; discriminate.
        -- rewrite map_map in Hin. apply in_map_iff in Hin as [file [Hf _]].
           rewrite Hall in Hf. simpl in Hf. congruence.
      * intros ->. apply ImgBB.all_rejected.
        destruct files as [|file rest]; [contradiction|].
        simpl. rewrite Hall. now left.
    + apply Forall_forall. intros upload Hin.
      apply in_map_iff in Hin as [file [<- _]]. now rewrite Hall.
  - intros values Hall. apply Promise_all_fulfilled_inv in Hall. split; [|exact Hall].
    apply (f_equal (@length _)) in Hall. rewrite !length_map in Hall. congruence.
  - intros Hc strings. apply Forall_forall. intros upload Hin.
    apply in_map_iff in Hin as [file [<- Hin]].
    apply in_map_iff in Hin as [text [<- _]].
    unfold uploadFile. unfold isConfigured in Hc. rewrite Hc. simpl negb. cbv iota.
    unfold post_upload.
    match goal with |- context [JS.bind ?c ?k] => destruct (JS.bind c k) end; reflexivity.
Qed.

End Properties.
End ServicesMore.

(* ===================================================================== *)
(** ** The hooks: properties *)
(* ===================================================================== *)

Module HooksMore.
Import JS Registry Hooks.

Section Sync.
Variable ModelProvider : Type.
Variable provider_of : ModelProvider -> string.
Variable as_ModelProvider : ProviderTemplate -> ModelProvider.

(** The cast changes nothing at run time: the entry has the template's
    [provider]. *)
Hypothesis provider_as : forall t, provider_of (as_ModelProvider t) = provider t.

Lemma lookup_assign_eq name v props : lookup name (assign name v props) = Some v.
Proof.
  induction props as [|[k x] rest IH]; simpl.
  - now rewrite String.eqb_refl.
  - destruct (k =? name) eqn:E; simpl; now rewrite E.
Qed.

Lemma lookup_assign_ne name other v props :
  name <> other -> lookup other (assign name v props) = lookup other props.
Proof.
  intros Hne. induction props as [|[k x] rest IH]; simpl.
  - destruct (String.eqb_spec name other); [contradiction | reflexivity].
  - destruct (String.eqb_spec k name) as [->|Hk]; simpl.
    + destruct (String.eqb_spec name other); [contradiction | reflexivity].
    + destruct (k =? other); [reflexivity | exact IH].
Qed.

Lemma includes_In names k : includes names k = true <-> In k names.
Proof.
  unfold includes. rewrite existsb_exists. split.
  - intros [n [Hin Heq]]. apply String.eqb_eq in Heq. now subst.
  - intros Hin. exists k. split; [exact Hin | apply String.eqb_refl].
Qed.

Lemma filter_twice {A} (f : A -> bool) l : filter f (filter f l) = filter f l.
Proof.
  induction l as [|x l IH]; simpl; [reflexivity|].
  destruct (f x) eqn:E; simpl; [now rewrite E, IH | exact IH].
Qed.

Lemma filter_none {A} (f : A -> bool) l :
  (forall x, In x l -> f x = false) -> filter f l = [].
Proof.
  induction l as [|x l IH]; simpl; [reflexivity|].
  intros Hall. rewrite (Hall x) by now left. apply IH. intros y Hy. apply Hall. now right.
Qed.

Lemma map_filter_comm {A B} (g : A -> B) (f : B -> bool) l :
  List.map g (filter (fun x => f (g x)) l) = filter f (List.map g l).
Proof.
  induction l as [|x l IH]; simpl; [reflexivity|].
  destruct (f (g x)); simpl; now rewrite IH.
Qed.

(** What the sync effect hands to the store.  With no registered provider
    it does not touch the store.  Otherwise the store gets the entries whose
    [provider] is not registered, in their order, followed by the registered
    templates in registry order: a registered provider replaces every store
    entry of the same name and, the registry's keys being distinct, is there
    exactly once.  Each synced template has a truthy [models] member (its
    own, or an empty array), and its other members are as registered. *)
Theorem syncProviders_registered_win
  (externalProviders : list ProviderTemplate) (providers : list ModelProvider) :
  syncProviders provider_of as_ModelProvider [] providers = None /\
  (externalProviders <> [] ->
   exists merged,
     syncProviders provider_of as_ModelProvider externalProviders providers = Some merged /\
     List.map provider_of merged =
       filter (fun k => negb (includes (List.map provider externalProviders) k))
              (List.map provider_of providers)
       ++ List.map provider externalProviders /\
     (forall t, In t externalProviders -> In (as_ModelProvider (with_models t)) merged) /\
     (NoDup (List.map provider externalProviders) ->
      forall t, In t externalProviders ->
        count_occ string_dec (List.map provider_of merged) (provider t) = 1)) /\
  (forall t,
     provider (with_models t) = provider t /\
     base_url (with_models t) = base_url t /\
     settings (with_models t) = settings t /\
     (exists m, lookup "models" (optional (with_models t)) = Some m /\ truthy m = true) /\
     (forall m, lookup "models" (optional t) = Some m -> truthy m = true ->
        lookup "models" (optional (with_models t)) = Some m) /\
     (forall other, other <> "models" ->
        lookup other (optional (with_models t)) = lookup other (optional t))).
Proof.
  split; [reflexivity|]. split.
  - intros Hne. unfold syncProviders.
    destruct externalProviders as [|t0 rest]; [contradiction|].
    set (ext := t0 :: rest). simpl length. simpl Nat.ltb. cbv iota.
    eexists. split; [reflexivity|].
    assert (Hnames : List.map provider_of
              (filter (fun p => negb (includes (List.map provider ext) (provider_of p))) providers
               ++ List.map (fun p => as_ModelProvider (with_models p)) ext) =
            filter (fun k => negb (includes (List.map provider ext) k))
                   (List.map provider_of providers)
            ++ List.map provider ext).
    { rewrite map_app. f_equal.
      - apply (map_filter_comm provider_of
                 (fun k => negb (includes (List.map provider ext) k))).
      - rewrite map_map. apply map_ext. intros t. now rewrite provider_as. }
    split; [exact Hnames|]. split.
    + intros t Hin. apply in_or_app. right.
      apply in_map_iff. now exists t.
    + intros Hnd t Hin. rewrite Hnames, count_occ_app.
      rewrite (proj1 (count_occ_not_In string_dec _ _)).
      * rewrite Nat.add_0_l. apply NoDup_count_occ'; [exact Hnd|]. now apply in_map.
      * intros Hf. apply filter_In in Hf as [_ Hf].
        apply negb_true_iff in Hf.
        assert (Ht : includes (List.map provider ext) (provider t) = true)
          by (apply includes_In; now apply in_map).
        congruence.
  - intros t. unfold with_models. simpl. repeat split.
    + rewrite lookup_assign_eq. eexists. split; [reflexivity|].
      destruct (lookup "models" (optional t)) as [m|]; [|reflexivity].
      destruct (truthy m) eqn:T; [exact T | reflexivity].
    + intros m Hm Ht. rewrite lookup_assign_eq, Hm. now rewrite Ht.
    + intros other Hne. apply lookup_assign_ne. congruence.
Qed.

(** The sync is stable and never deletes.  Run again on its own result it
    hands the store the same list.  Run for another set of registered
    providers it keeps, in order, every entry whose [provider] is not among
    them: an entry synced earlier stays in the store after its provider has
    been unregistered. *)
Theorem syncProviders_is_stable
  (externalProviders later : list ProviderTemplate) (providers merged : list ModelProvider) :
  syncProviders provider_of as_ModelProvider externalProviders providers = Some merged ->
  syncProviders provider_of as_ModelProvider externalProviders merged = Some merged /\
  (forall merged', syncProviders provider_of as_ModelProvider later merged = Some merged' ->
     forall p, In p merged ->
       includes (List.map provider later) (provider_of p) = false ->
       In p merged').
Proof.
  unfold syncProviders.
  destruct (Nat.ltb 0 (length externalProviders)) eqn:L; [|discriminate].
  intros [= <-]. split.
  - f_equal. rewrite filter_app, filter_twice. f_equal.
    rewrite (filter_none _ (List.map _ externalProviders)); [apply app_nil_r|].
    intros x Hin. apply in_map_iff in Hin as [t [<- Hin]].
    apply negb_false_iff. rewrite provider_as. apply includes_In.
    change (provider (with_models t)) with (provider t). now apply in_map.
  - intros merged'. destruct (Nat.ltb 0 (length later)); [|discriminate].
    intros [= <-] p Hin Hout. apply in_or_app. left.
    apply filter_In. split; [exact Hin | now rewrite Hout].
Qed.

End Sync.

Section RegistryHook.
Variable run : JSSet.ref -> JSMap.t ProviderTemplate -> option exn.

(** The hook's loaders catch what the registry throws and show it: a config
    the validator refuses leaves the registry as it was and sets the error
    text "Invalid provider configuration format"; a URL whose response is not
    ok sets the text naming the URL and the status; a load that succeeds
    clears the error and sets none.  [loadFromUrl] sets loading first and
    clears it last in every case, and both leave the registry exactly as the
    registry's own method leaves it. *)
Theorem hook_loaders_report (config : value) (url : string)
  (fetched : completion response) (w : world) :
  (validateProviderConfig config = Normal false ->
     loadFromConfig run config w =
     ([SetError None;
       SetError (Some "Invalid provider configuration format");
       LogError "Error loading providers from config:"
                (Error "Invalid provider configuration format")], w)) /\
  (validateProviderConfig config = Normal true ->
     fst (loadFromConfig run config w) = [SetError None]) /\
  snd (loadFromConfig run config w) = snd (loadProvidersFromConfig run config w) /\
  (forall r, fetched = Normal r -> ok r = false ->
     In (SetError (Some ("Failed to fetch providers from " ++ url ++ ": " ++ statusText r)%string))
        (fst (loadFromUrl run url fetched w))) /\
  (forall e, fst (loadProvidersFromUrl run url fetched w) = Throw e ->
     fst (loadFromUrl run url fetched w) =
     [SetLoading true; SetError None;
      SetError (Some (error_message e "Failed to load providers from URL"));
      LogError "Error loading providers from URL:" e; SetLoading false]) /\
  (fst (loadProvidersFromUrl run url fetched w) = Normal tt ->
     fst (loadFromUrl run url fetched w) = [SetLoading true; SetError None; SetLoading false]) /\
  snd (loadFromUrl run url fetched w) = snd (loadProvidersFromUrl run url fetched w).
Proof.
  unfold loadFromConfig, loadFromUrl.
  split; [|split; [|split; [|split; [|split; [|split]]]]].
  - intros Hv. rewrite RegistryFacts.loadProvidersFromConfig_spec, Hv. reflexivity.
  - intros Hv. rewrite RegistryFacts.loadProvidersFromConfig_spec, Hv.
    now rewrite RegistryFacts.perform_spec.
  - now destruct (loadProvidersFromConfig run config w) as [[[]|e] w'].
  - intros r -> Hok. rewrite RegistryFacts.loadProvidersFromUrl_spec. simpl.
    rewrite Hok. simpl. right. right. now left.
  - intros e. destruct (loadProvidersFromUrl run url fetched w) as [[[]|e'] w']; simpl;
      [discriminate | now intros [= <-]].
  - destruct (loadProvidersFromUrl run url fetched w) as [[[]|e'] w']; simpl;
      [reflexivity | discriminate].
  - now destruct (loadProvidersFromUrl run url fetched w) as [[[]|e'] w'].
Qed.

End RegistryHook.

Section GenerationHook.
Import Services.
Context {number : Type} `{JSNumber number}.
Variable browser : platform.
Variable createObjectURL : string -> string.
Variable String_of : value -> string.

Lemma hook_requests_app a b : hook_requests (a ++ b) = hook_requests a ++ hook_requests b.
Proof.
  induction a as [|[| |[]] a IH]; simpl; now rewrite ?IH.
Qed.

Lemma hook_requests_Did evs : hook_requests (List.map Did evs) = requests evs.
Proof.
  induction evs as [|[] evs IH]; simpl; now rewrite ?IH.
Qed.

(** The shape all wrappers of the hook share. *)
Lemma bracketed_first_last (middle tail : list generation_event) :
  let evs := [SetIsGenerating true; SetGenerationError None] ++ middle
             ++ tail ++ [SetIsGenerating false] in
  hd_error evs = Some (SetIsGenerating true) /\
  last evs (SetIsGenerating true) = SetIsGenerating false.
Proof.
  intros evs. subst evs. split; [reflexivity|].
  rewrite !app_assoc. apply last_last.
Qed.

(** The hook's [generateImage] never rejects: when the service resolves
    the result holds the blob and its object URL and no error; when the
    service rejects the result holds only the error text (the error's
    message, or "Failed to generate image" for a thrown value that is no
    Error), which is also set as the hook's error.  Either way isGenerating
    is set first and cleared last, the error is cleared before the call, and
    the hook adds no request of its own. *)
Theorem hook_generateImage_reports (pollinations : PollinationsService) (prompt : string)
  (options : ImageGenerationOptions number) :
  let service := Services.generateImage browser pollinations prompt options in
  let hook := Hooks.generateImage browser createObjectURL pollinations prompt options in
  (forall blob, fst service = Normal blob ->
     fst hook = {| result_url := Some (createObjectURL blob); result_blob := Some blob;
                   result_error := None |} /\
     forall text, ~ In (SetGenerationError (Some text)) (snd hook)) /\
  (forall err, fst service = Throw err ->
     fst hook = {| result_url := None; result_blob := None;
                   result_error := Some (error_message err "Failed to generate image") |} /\
     In (SetGenerationError (Some (error_message err "Failed to generate image"))) (snd hook)) /\
  hd_error (snd hook) = Some (SetIsGenerating true) /\
  nth_error (snd hook) 1 = Some (SetGenerationError None) /\
  last (snd hook) (SetIsGenerating true) = SetIsGenerating false /\
  hook_requests (snd hook) = requests (snd service).
Proof.
  cbv zeta. unfold Hooks.generateImage.
  destruct (Services.generateImage browser pollinations prompt options) as [[blob|err] evs];
    simpl fst; simpl snd.
  - split.
    { intros b [= <-]. split; [reflexivity|].
      intros text Hin. simpl in Hin. destruct Hin as [Hin|[Hin|Hin]]; try discriminate.
      apply in_app_or in Hin as [Hin|[Hin|[]]]; [|discriminate].
      apply in_map_iff in Hin as [e [He _]]. discriminate. }
    split; [discriminate|].
    split; [reflexivity|]. split; [reflexivity|]. split.
    { exact (proj2 (bracketed_first_last (List.map Did evs) [])). }
    cbn [hook_requests app]. rewrite hook_requests_app, hook_requests_Did.
    cbn [hook_requests]. now rewrite app_nil_r.
  - split; [discriminate|]. split.
    { intros e [= <-]. split; [reflexivity|].
      right. right. apply in_or_app. right. now left. }
    split; [reflexivity|]. split; [reflexivity|]. split.
    { exact (proj2 (bracketed_first_last (List.map Did evs)
                      [SetGenerationError (Some (error_message err "Failed to generate image"))])). }
    cbn [hook_requests app]. rewrite hook_requests_app, hook_requests_Did.
    cbn [hook_requests]. now rewrite app_nil_r.
Qed.

Lemma generateVideoWith_string pollinations prompt (options : VideoGenerationOptions number) u :
  generateVideoWith browser String_of pollinations prompt options (VString u) =
  Services.generateVideo browser pollinations prompt (with_reference options u).
Proof. reflexivity. Qed.

(** [generateVideoWithReference] uploads the reference first, under the
    name "video-reference", and generates only when the upload gave a URL.
    With no ImgBB credential it answers with the error text "ImgBB API key is
    not configured" and nothing is read or requested.  Whenever the upload
    rejects, the result is that error's text and no generation request is
    made.  When the upload resolves with a body whose [data.url] is a string,
    the generation is [generateVideo] with that string as reference image,
    after the upload, and the result is its blob or its error text. *)
Theorem generateVideoWithReference_chains
  (pollinations : PollinationsService) (imgbb : ImgBBService) (prompt : string)
  (referenceFile : File) (options : VideoGenerationOptions number) :
  let upload :=
    Services.uploadFile browser imgbb (inl referenceFile)
      {| name := Some "video-reference"; expiration := None |} in
  let hook :=
    generateVideoWithReference browser createObjectURL String_of pollinations imgbb prompt
      referenceFile options in
  (isConfigured imgbb = false ->
     hook = ({| result_url := None; result_blob := None;
                result_error := Some "ImgBB API key is not configured" |},
             [SetIsGenerating true; SetGenerationError None;
              SetGenerationError (Some "ImgBB API key is not configured");
              SetIsGenerating false])) /\
  (forall err, fst upload = Throw err ->
     fst hook = {| result_url := None; result_blob := None;
                   result_error :=
                     Some (error_message err "Failed to generate video with reference") |} /\
     hook_requests (snd hook) = requests (snd upload)) /\
  (forall uploadResult data u,
     fst upload = Normal uploadResult ->
     JS.get "data" uploadResult = Normal data ->
     JS.get "url" data = Normal (VString u) ->
     let video := Services.generateVideo browser pollinations prompt (with_reference options u) in
     hook_requests (snd hook) = requests (snd upload) ++ requests (snd video) /\
     (forall blob, fst video = Normal blob ->
        fst hook = {| result_url := Some (createObjectURL blob); result_blob := Some blob;
                      result_error := None |}) /\
     (forall err, fst video = Throw err ->
        fst hook = {| result_url := None; result_blob := None;
                      result_error :=
                        Some (error_message err "Failed to generate video with reference") |})).
Proof.
  cbv zeta. unfold generateVideoWithReference. split; [|split].
  - unfold isConfigured. intros Hc. unfold Services.uploadFile. now rewrite Hc.
  - destruct (Services.uploadFile browser imgbb (inl referenceFile)
                {| name := Some "video-reference"; expiration := None |}) as [[res|e] evs1];
      simpl fst; simpl snd; [discriminate|].
    intros err [= <-]. simpl. split; [reflexivity|].
    rewrite hook_requests_app, hook_requests_Did. simpl. now rewrite app_nil_r.
  - destruct (Services.uploadFile browser imgbb (inl referenceFile)
                {| name := Some "video-reference"; expiration := None |}) as [[res|e] evs1];
      simpl fst; simpl snd; [|discriminate].
    intros uploadResult data u [= <-] Hd Hu. simpl JS.bind. rewrite Hd. simpl JS.bind.
    rewrite Hu. rewrite generateVideoWith_string.
    destruct (Services.generateVideo browser pollinations prompt (with_reference options u))
      as [[blob|err] evs2]; simpl fst; simpl snd.
    + split; [|split; [now intros b [= <-] | discriminate]].
      cbn [hook_requests app]. rewrite hook_requests_app, hook_requests_Did.
      cbn [hook_requests]. rewrite app_nil_r.
      clear. induction evs1 as [|[] evs1 IH]; simpl; now rewrite ?IH.
    + split; [|split; [discriminate | now intros e [= <-]]].
      cbn [hook_requests app]. rewrite hook_requests_app, hook_requests_Did.
      cbn [hook_requests]. rewrite app_nil_r.
      clear. induction evs1 as [|[] evs1 IH]; simpl; now rewrite ?IH.
Qed.

End GenerationHook.

End HooksMore.

(* ===================================================================== *)
(** ** The further properties at sample inputs *)
(* ===================================================================== *)

Module MoreChecks.
Import JS Registry Examples MoreExamples.
#[local] Existing Instance Services.SafeInteger_JSNumber.

(** The browser's encoders on a prompt with spaces and an ampersand, on
    two-byte text (U+00E9) and on a lone surrogate. *)
Example test_encoders :
  uri_encode "a cat & a dog" = Normal "a%20cat%20%26%20a%20dog" /\
  form_urlencoded "a cat & a dog" = "a+cat+%26+a+dog" /\
  uri_encode (String (ascii_of_N 195) (String (ascii_of_N 169) EmptyString)) = Normal "%C3%A9" /\
  uri_encode lone_surrogate = Throw (URIError "URI malformed") /\
  form_urlencoded lone_surrogate = "%EF%BF%BD".
Proof. repeat split. Qed.

(** One GET, to the URL built from the encoded prompt and the members. *)
Example test_generateImage_request :
  Services.generateImage accepting pollinations "a cat" sized_image_options =
  (Normal "",
   [Services.Fetched
      {| Services.url :=
           "https://gen.pollinations.ai/image/a%20cat?model=flux&width=512&seed=42";
         Services.method := "GET"; Services.headers := []; Services.body := None |}]).
Proof. reflexivity. Qed.

(** A prompt that cannot be encoded: the call rejects before the [try], so
    nothing is requested and nothing is written to the console. *)
Example test_generateImage_lone_surrogate :
  Services.generateImage accepting pollinations lone_surrogate sized_image_options =
    (Throw (URIError "URI malformed"), []) /\
  Services.generateVideo accepting pollinations lone_surrogate falsy_video_options =
    (Throw (URIError "URI malformed"), []).
Proof. split; reflexivity. Qed.

Lemma registerProvider_keeps_insertion_order_witness :
  reachable run_ex w_ex /\
  List.map provider (getRegisteredProviders (snd (registerProvider run_ex provider1 w_ex))) =
    ["test-provider"; "provider1"] /\
  List.map provider (getRegisteredProviders (snd (registerProvider run_ex test_provider' w_ex))) =
    ["test-provider"].
Proof.
  split; [exact RegistryChecks.w_ex_reachable|]. split.
  - exact (proj1 (RegistryMore.registerProvider_keeps_insertion_order provider1
                    RegistryChecks.w_ex_reachable)).
  - exact (proj1 (RegistryMore.registerProvider_keeps_insertion_order test_provider'
                    RegistryChecks.w_ex_reachable)).
Defined.

Lemma register_then_unregister_restores_witness :
  hasProvider "provider1" w_ex = false /\
  externalProviders
    (snd (unregisterProvider run_ex "provider1" (snd (registerProvider run_ex provider1 w_ex)))) =
  externalProviders w_ex.
Proof.
  split; [reflexivity|].
  exact (RegistryMore.register_then_unregister_restores run_ex provider1 w_ex eq_refl).
Defined.

Lemma clearAll_empties_and_notifies_witness :
  reachable run_ex w_ex /\
  exists w' evs,
    clearAll run_ex w_ex = (Normal tt, w') /\
    getRegisteredProviders w' = [] /\
    count_calls 1 evs = 1 /\ count_calls 2 evs = 1.
Proof.
  split; [exact RegistryChecks.w_ex_reachable|].
  destruct (RegistryMore.clearAll_empties_and_notifies RegistryChecks.w_ex_reachable)
    as (w' & evs & H1 & H2 & _ & _ & _ & Hcount).
  exists w', evs. split; [exact H1|]. split; [exact H2|]. split; apply Hcount.
Defined.

Lemma loadProvidersFromConfig_loads_all_witness :
  validateProviderConfig valid_config = Normal true /\
  exists w',
    loadProvidersFromConfig run_ex valid_config w_ex = (Normal tt, w') /\
    List.map provider (config_providers valid_config) = ["good"; "better"] /\
    forall t, In t (config_providers valid_config) -> hasProvider (provider t) w' = true.
Proof.
  split; [reflexivity|].
  destruct (RegistryMore.loadProvidersFromConfig_loads_all run_ex valid_config w_ex eq_refl)
    as (elems & w' & evs & _ & _ & Hload & Hhas & _).
  exists w'. split; [exact Hload|]. split; [reflexivity | exact Hhas].
Defined.

Lemma loadProvidersFromUrl_as_config_witness :
  ok valid_response = true /\
  json valid_response = Normal valid_config /\
  loadProvidersFromUrl run_ex "https://example.com/providers.json" (Normal valid_response) w_ex =
  loadProvidersFromConfig run_ex valid_config
    (emit (Fetch "https://example.com/providers.json") w_ex).
Proof.
  split; [reflexivity|]. split; [reflexivity|].
  destruct (RegistryMore.loadProvidersFromUrl_as_config run_ex
              "https://example.com/providers.json" valid_response w_ex eq_refl eq_refl)
    as (_ & _ & _ & Hsame).
  exact (Hsame eq_refl).
Defined.

Lemma registered_providers_are_distinct_witness :
  reachable run_ex w_ex /\
  NoDup (List.map provider (getRegisteredProviders w_ex)) /\
  getProvider "test-provider" w_ex = Some test_provider.
Proof.
  split; [exact RegistryChecks.w_ex_reachable|].
  destruct (RegistryMore.registered_providers_are_distinct RegistryChecks.w_ex_reachable)
    as [Hnd Hget].
  split; [exact Hnd|]. apply (Hget test_provider). now left.
Defined.

Lemma unsubscribe_stops_notifications_witness :
  reachable run_ex w_ex /\
  exists u w1 w2 during after,
    onProvidersChanged 9 w_ex = (Normal u, w1) /\
    call_unsubscribe u w1 = (Normal tt, w2) /\
    trace (snd (perform run_ex ClearAll w1)) = trace w1 ++ during /\
    count_calls 9 during = 1 /\
    trace (snd (perform run_ex ClearAll w2)) = trace w2 ++ after /\
    count_calls 9 after = 0 /\
    count_calls 2 after = 1 /\
    providerLoadCallbacks w2 = providerLoadCallbacks w_ex.
Proof.
  split; [exact RegistryChecks.w_ex_reachable|].
  destruct (RegistryMore.unsubscribe_stops_notifications 9 ClearAll RegistryChecks.w_ex_reachable)
    as (u & w1 & w2 & during & after & H1 & H2 & H3 & H4 & H5 & H6 & H7 & H8 & _).
  exists u, w1, w2, during, after.
  split; [exact H1|]. split; [exact H2|]. split; [exact H3|]. split; [exact H4|].
  split; [exact H5|]. split; [exact H6|]. split.
  - apply (H7 2). discriminate.
  - apply H8. reflexivity.
Defined.

Lemma uploadFile_settles_witness :
  Services.isConfigured configured = true /\
  exists req,
    Services.requests (snd (Services.uploadFile accepting configured (inr "aGVsbG8=")
                              no_upload_options)) = [req] /\
    Services.method req = "POST" /\
    Services.body req = Some [("key", "abc123"); ("image", "aGVsbG8=")].
Proof.
  split; [reflexivity|].
  destruct (ServicesMore.uploadFile_settles accepting configured "aGVsbG8=" no_upload_options
              eq_refl)
    as (req & H1 & H2 & H3 & _).
  exists req. split; [exact H1|]. split; [exact H2 | exact H3].
Defined.

Lemma uploadFile_reads_the_file_witness :
  Services.isConfigured configured = true /\
  Services.uploadFile accepting configured (inl reference_file) no_upload_options =
  (fst (Services.uploadFile accepting configured (inr "aGVsbG8=") no_upload_options),
   Services.ReadAsDataURL reference_file
   :: snd (Services.uploadFile accepting configured (inr "aGVsbG8=") no_upload_options)).
Proof.
  split; [reflexivity|].
  destruct (ServicesMore.uploadFile_reads_the_file accepting configured reference_file
              no_upload_options eq_refl)
    as (Hpayload & _).
  exact (Hpayload "data:image/png;base64" "aGVsbG8=" eq_refl eq_refl eq_refl).
Defined.

Lemma syncProviders_registered_win_witness :
  (forall t : ProviderTemplate, provider ((fun x => x) t) = provider t) /\
  exists merged,
    Hooks.syncProviders provider (fun x => x) [test_provider'] [provider1; test_provider] =
      Some merged /\
    List.map provider merged = ["provider1"; "test-provider"] /\
    In (Hooks.with_models test_provider') merged.
Proof.
  split; [reflexivity|].
  destruct (HooksMore.syncProviders_registered_win provider (fun x => x) (fun t => eq_refl)
              [test_provider'] [provider1; test_provider])
    as (_ & Hsync & _).
  destruct Hsync as (merged & Hm & Hnames & Hin & _); [discriminate|].
  exists merged. split; [exact Hm|]. split; [exact Hnames|].
  apply Hin. now left.
Defined.

Lemma syncProviders_is_stable_witness :
  (forall t : ProviderTemplate, provider ((fun x => x) t) = provider t) /\
  Hooks.syncProviders provider (fun x => x) [test_provider'] [provider1; test_provider] =
    Some [provider1; Hooks.with_models test_provider'] /\
  Hooks.syncProviders provider (fun x => x) [test_provider']
    [provider1; Hooks.with_models test_provider'] =
    Some [provider1; Hooks.with_models test_provider'].
Proof.
  split; [reflexivity|]. split; [reflexivity|].
  exact (proj1 (HooksMore.syncProviders_is_stable provider (fun x => x) (fun t => eq_refl)
                  [test_provider'] [] [provider1; test_provider] eq_refl)).
Defined.

End MoreChecks.
